(** * Barista agent: the chat widget and the ordering back end

    The repository ships a React chat widget (frontend/app/page.tsx) that talks
    to an ordering back end over two HTTP endpoints.  The widget is embedded
    from its source in [Module Widget]; the back end (turn controller, tool
    set, session store, HTTP shim) is embedded in [Module Backend].

    Part I holds the definitions, Part II the theorems. *)

From Stdlib Require Import ZArith NArith Ascii String Lia DecimalString DecimalN.
From stdpp Require Import gmap strings list.

Open Scope string_scope.

(* ===================================================================== *)
(** * Part I.  Definitions                                                *)
(* ===================================================================== *)

(** ** The chat widget (frontend/app/page.tsx) *)

Module Widget.

(** A JavaScript string is a sequence of UTF-16 code units. *)
Abbreviation jstring := (list N).

(** A string literal of the source (all of them are ASCII). *)
Definition lit (s : string) : jstring :=
  N_of_ascii <$> list_ascii_of_string s.

(** What [response.json()] can resolve to.  Numbers are kept integral: the
    widget only ever tests them for truthiness. *)
#[local] Unset Elimination Schemes.
Inductive json : Type :=
| JNull
| JBool (b : bool)
| JNum (n : Z)
| JStr (s : jstring)
| JArr (xs : list json)
| JObj (fields : list (string * json)).
#[local] Set Elimination Schemes.

(** A value held in a React state cell or read from [data]. *)
Inductive jsval : Type :=
| JUndefined
| JV (j : json).

(** Own-property lookup in a parsed object. *)
Fixpoint assoc (k : string) (fields : list (string * json)) : option json :=
  match fields with
  | [] => None
  | (k', v) :: rest => if String.eqb k k' then Some v else assoc k rest
  end.

(** [data.k] for the property names the widget reads ([session_id],
    [response], [finished]).  [None] is the TypeError thrown when [data] is
    [null]; on the other primitives and on arrays these names are absent. *)
Definition get_prop (data : json) (k : string) : option jsval :=
  match data with
  | JNull => None
  | JObj fields =>
      Some (match assoc k fields with Some v => JV v | None => JUndefined end)
  | _ => Some JUndefined
  end.

(** JavaScript truthiness, as used by [if (...)], [||], [!] and [?:]. *)
Definition truthy (v : jsval) : bool :=
  match v with
  | JUndefined => false
  | JV JNull => false
  | JV (JBool b) => b
  | JV (JNum n) => negb (n =? 0)%Z
  | JV (JStr s) => match s with [] => false | _ => true end
  | JV (JArr _) => true
  | JV (JObj _) => true
  end.

(** ECMAScript WhiteSpace and LineTerminator code points (all in the BMP). *)
Definition is_whitespace (c : N) : bool :=
  ((c =? 9) || (c =? 10) || (c =? 11) || (c =? 12) || (c =? 13)
   || (c =? 32) || (c =? 160) || (c =? 5760)
   || ((8192 <=? c) && (c <=? 8202))
   || (c =? 8232) || (c =? 8233) || (c =? 8239) || (c =? 8287)
   || (c =? 12288) || (c =? 65279))%N.

Fixpoint trim_start (s : jstring) : jstring :=
  match s with
  | [] => []
  | c :: rest => if is_whitespace c then trim_start rest else s
  end.

(** [String.prototype.trim]. *)
Definition trim (s : jstring) : jstring :=
  rev (trim_start (rev (trim_start s))).

(** [!s] for a string [s]. *)
Definition is_empty (s : jstring) : bool :=
  match s with [] => true | _ => false end.

Inductive Role : Type := user | assistant.

(** [interface Message].  [content] is typed [string] in the source but is
    filled from the untyped [data.response]. *)
Record Message : Type := mkMessage {
  id : jstring;
  role : Role;
  content : jsval
}.

(** The five [useState] cells of [Home]. *)
Record state : Type := mkState {
  messages : list Message;
  input : jstring;
  isLoading : bool;
  sessionId : jsval;
  isFinished : jsval
}.

Definition initial_state : state :=
  {| messages := []; input := []; isLoading := false;
     sessionId := JV JNull; isFinished := JV (JBool false) |}.

(** A [fetch] call.  [body] is the value handed to [JSON.stringify]. *)
Record request : Type := mkRequest {
  url : string;
  method : string;
  headers : list (string * string);
  body : option json
}.

(** How [await fetch(...)] followed by [await response.json()] ends:
    either of them rejects, or a parsed body is obtained.  The HTTP status
    is never inspected by the widget. *)
Inductive fetch_result : Type :=
| Rejected
| Resolved (data : json).

Section Handlers.

(** [process.env.NEXT_PUBLIC_API_URL || "http://localhost:8000"] *)
Variable API_URL : string.

Definition start_request : request :=
  {| url := API_URL ++ "/start"; method := "POST"; headers := []; body := None |}.

(** [JSON.stringify({message, session_id})]: a property whose value is
    [undefined] is left out. *)
Definition chat_body (userMessage : jstring) (sid : jsval) : json :=
  JObj (("message", JStr userMessage) ::
        match sid with
        | JUndefined => []
        | JV j => [("session_id", j)]
        end).

Definition chat_request (userMessage : jstring) (sid : jsval) : request :=
  {| url := API_URL ++ "/chat"; method := "POST";
     headers := [("Content-Type", "application/json")];
     body := Some (chat_body userMessage sid) |}.

Definition start_apology : jstring :=
  lit "Sorry, I couldn't connect to the server. Please try again later.".

Definition chat_apology : jstring :=
  lit "Sorry, something went wrong. Please try again.".

(** [startConversation], up to the first [await]. *)
Definition startConversation_begin (w : state) : state * request :=
  ({| messages := messages w; input := input w; isLoading := true;
      sessionId := sessionId w; isFinished := isFinished w |},
   start_request).

(** [startConversation], from the settled fetch to the end.  [mid] is the
    value of [generateId()]. *)
Definition startConversation_settle
    (r : fetch_result) (mid : jstring) (w : state) : state :=
  let failed :=
    {| messages := [mkMessage mid assistant (JV (JStr start_apology))];
       input := input w; isLoading := false;
       sessionId := sessionId w; isFinished := isFinished w |} in
  match r with
  | Rejected => failed
  | Resolved data =>
      match get_prop data "session_id",
            get_prop data "response",
            get_prop data "finished" with
      | Some sid, Some resp, Some fin =>
          {| messages := [mkMessage mid assistant resp];
             input := input w; isLoading := false;
             sessionId := sid; isFinished := fin |}
      | _, _, _ => failed
      end
  end.

(** [sendMessage], up to the first [await]. *)
Definition sendMessage (mid : jstring) (w : state) : state * option request :=
  if is_empty (trim (input w)) || isLoading w || truthy (isFinished w)
  then (w, None)
  else
    let userMessage := trim (input w) in
    ({| messages := messages w ++ [mkMessage mid user (JV (JStr userMessage))];
        input := [];
        isLoading := true;
        sessionId := sessionId w; isFinished := isFinished w |},
     Some (chat_request userMessage (sessionId w))).

(** [sendMessage], from the settled fetch to the next render.  The updater
    passed to [setMessages] on the success path reads [data.response] when
    React runs it, so with [data = null] the statement after it throws, the
    catch block runs, and the queued updater then throws while rendering:
    [None] is that lost widget. *)
Definition sendMessage_settle
    (r : fetch_result) (mid : jstring) (w : state) : option state :=
  match r with
  | Rejected =>
      Some {| messages :=
                messages w ++ [mkMessage mid assistant (JV (JStr chat_apology))];
              input := input w; isLoading := false;
              sessionId := sessionId w; isFinished := isFinished w |}
  | Resolved data =>
      match get_prop data "response", get_prop data "finished" with
      | Some resp, Some fin =>
          Some {| messages := messages w ++ [mkMessage mid assistant resp];
                  input := input w; isLoading := false;
                  sessionId := sessionId w; isFinished := fin |}
      | _, _ => None
      end
  end.

(** [resetConversation]. *)
Definition resetConversation (w : state) : state * request :=
  startConversation_begin
    {| messages := []; input := input w; isLoading := isLoading w;
       sessionId := JV JNull; isFinished := JV (JBool false) |}.

(** [onChange] of the text input. *)
Definition setInput (v : jstring) (w : state) : state :=
  {| messages := messages w; input := v; isLoading := isLoading w;
     sessionId := sessionId w; isFinished := isFinished w |}.

(** What the bottom of the page renders: the reset button, or the form with
    the [disabled] attributes of its input and of its Send button. *)
Inductive control : Type :=
| ResetControl
| InputForm (input_disabled button_disabled : bool).

Definition render (w : state) : control :=
  if truthy (isFinished w) then ResetControl
  else InputForm (isLoading w) (isLoading w || is_empty (trim (input w))).

(** *** The widget in its environment *)

Inductive call : Type := CStart | CChat.

Definition call_eqb (a b : call) : bool :=
  match a, b with
  | CStart, CStart | CChat, CChat => true
  | _, _ => false
  end.

Fixpoint take_out (c : call) (l : list call) : option (list call) :=
  match l with
  | [] => None
  | x :: rest =>
      if call_eqb c x then Some rest
      else match take_out c rest with
           | Some rest' => Some (x :: rest')
           | None => None
           end
  end.

(** The component together with the fetches that have not settled yet. *)
Record world : Type := mkWorld {
  mounted : bool;
  ui : state;
  inflight : list call
}.

Definition unmounted : world :=
  {| mounted := false; ui := initial_state; inflight := [] |}.

Inductive event : Type :=
| Mount
| Change (v : jstring)
| Submit (mid : jstring)
| ClickReset
| StartSettled (r : fetch_result) (mid : jstring)
| ChatSettled (r : fetch_result) (mid : jstring).

(** One turn of the browser's event loop.  [None]: the event cannot happen
    in this world (the control is not rendered or is disabled, no such fetch
    is pending), or the render that follows throws.  The submit handler is
    allowed in every mounted world, whatever is rendered.  [Mount] is the
    mount effect as a production build runs it, once; the development
    server runs it twice, see [strict_mount] below. *)
Definition step (W : world) (e : event) : option (world * list request) :=
  match e with
  | Mount =>
      if mounted W then None
      else let '(w', rq) := startConversation_begin (ui W) in
           Some ({| mounted := true; ui := w'; inflight := inflight W ++ [CStart] |},
                 [rq])
  | Change v =>
      match mounted W, render (ui W) with
      | true, InputForm false _ =>
          Some ({| mounted := true; ui := setInput v (ui W);
                   inflight := inflight W |}, [])
      | _, _ => None
      end
  | Submit mid =>
      if mounted W then
        match sendMessage mid (ui W) with
        | (w', Some rq) =>
            Some ({| mounted := true; ui := w'; inflight := inflight W ++ [CChat] |},
                  [rq])
        | (w', None) =>
            Some ({| mounted := true; ui := w'; inflight := inflight W |}, [])
        end
      else None
  | ClickReset =>
      match mounted W, render (ui W) with
      | true, ResetControl =>
          let '(w', rq) := resetConversation (ui W) in
          Some ({| mounted := true; ui := w'; inflight := inflight W ++ [CStart] |},
                [rq])
      | _, _ => None
      end
  | StartSettled r mid =>
      match take_out CStart (inflight W) with
      | Some rest =>
          Some ({| mounted := mounted W;
                   ui := startConversation_settle r mid (ui W);
                   inflight := rest |}, [])
      | None => None
      end
  | ChatSettled r mid =>
      match take_out CChat (inflight W) with
      | Some rest =>
          match sendMessage_settle r mid (ui W) with
          | Some w' =>
              Some ({| mounted := mounted W; ui := w'; inflight := rest |}, [])
          | None => None
          end
      | None => None
      end
  end.

(** A run from a world: the world reached and every request issued. *)
Fixpoint run (evs : list event) (W : world) : option (world * list request) :=
  match evs with
  | [] => Some (W, [])
  | e :: rest =>
      match step W e with
      | Some (W', rqs) =>
          match run rest W' with
          | Some (W'', rqs') => Some (W'', (rqs ++ rqs')%list)
          | None => None
          end
      | None => None
      end
  end.

Definition reachable (W : world) : Prop :=
  exists evs rqs, run evs unmounted = Some (W, rqs).

(** The session id the back end handed out most recently: the [session_id]
    of the last start response that was taken, [null] again after a reset. *)
Fixpoint started_session (evs : list event) (acc : jsval) : jsval :=
  match evs with
  | [] => acc
  | StartSettled (Resolved data) _ :: rest =>
      match get_prop data "session_id" with
      | Some sid => started_session rest sid
      | None => started_session rest acc
      end
  | ClickReset :: rest => started_session rest (JV JNull)
  | _ :: rest => started_session rest acc
  end.

(** What holds when the mount effect has run once: at most one fetch is
    pending; while one is, the widget shows itself as loading and not
    finished, and while a start is pending the transcript is empty. *)
Definition inv (W : world) : Prop :=
  match inflight W with
  | [] => if mounted W then True else ui W = initial_state
  | [CStart] =>
      mounted W = true /\ isLoading (ui W) = true /\
      truthy (isFinished (ui W)) = false /\ messages (ui W) = []
  | [CChat] =>
      mounted W = true /\ isLoading (ui W) = true /\
      truthy (isFinished (ui W)) = false
  | _ => False
  end.

(** The mount effect under React StrictMode, which the development server
    of the framework turns on: the effect is run, its cleanup is run (there
    is none) and the effect is run again, before any other event.
    [startConversation] is therefore called twice and two start requests
    are pending. *)
Definition strict_mount : world * list request :=
  let '(w1, rq1) := startConversation_begin initial_state in
  let '(w2, rq2) := startConversation_begin w1 in
  ({| mounted := true; ui := w2; inflight := [CStart; CStart] |}, [rq1; rq2]).

(** Where the event loop starts: before the mount effect of a production
    build ([Mount] is then the first event), or after the doubled mount
    effect of the development server. *)
Definition boot (strict : bool) : world :=
  if strict then strict_mount.1 else unmounted.

(** The worlds the page can be in, in either mode. *)
Definition page_reachable (W : world) : Prop :=
  exists strict evs rqs, run evs (boot strict) = Some (W, rqs).

(** What holds of the pending fetches in either mode. *)
Definition loose (W : world) : Prop :=
  (length (inflight W) <= 2)%nat /\
  (isLoading (ui W) = false -> (length (inflight W) <= 1)%nat) /\
  (isLoading (ui W) = true ->
   inflight W <> [] /\ truthy (isFinished (ui W)) = false) /\
  (mounted W = false -> W = unmounted).

(** The reading of the widget under which no two requests are ever pending
    together, however the page was mounted. *)
Definition never_two_in_flight : Prop :=
  forall W, page_reachable W -> (length (inflight W) <= 1)%nat.

(** The reading of the widget under which a failed start request always
    adds one message to the transcript, however the page was mounted. *)
Definition failure_always_appends : Prop :=
  forall W mid W' out,
    page_reachable W ->
    step W (StartSettled Rejected mid) = Some (W', out) ->
    exists m, messages (ui W') = (messages (ui W) ++ [m])%list.

(** The reading of the chat contract under which every chat request carries
    an id that some start response handed out. *)
Definition chat_carries_started_id : Prop :=
  forall evs W rqs mid W' rq,
    run evs unmounted = Some (W, rqs) ->
    step W (Submit mid) = Some (W', [rq]) ->
    exists data m sid,
      In (StartSettled (Resolved data) m) evs /\
      get_prop data "session_id" = Some (JV sid) /\
      body rq = Some (JObj [("message", JStr (trim (input (ui W))));
                            ("session_id", sid)]).

End Handlers.

(** Sample data for the examples. *)
Definition demo_api : string := "http://localhost:8000".

Definition demo_start_body : json :=
  JObj [("session_id", JStr (lit "s-1"));
        ("response", JStr (lit "Welcome!"));
        ("finished", JBool false)].

Definition demo_final_body : json :=
  JObj [("response", JStr (lit "Order placed.")); ("finished", JBool true)].

(** The world a sequence of events leads to from the unmounted page. *)
Definition world_after (evs : list event) : world :=
  match run demo_api evs unmounted with
  | Some (W, _) => W
  | None => unmounted
  end.

Definition requests_of (evs : list event) : list request :=
  match run demo_api evs unmounted with
  | Some (_, rqs) => rqs
  | None => []
  end.

(** The page started a session and the visitor typed a message. *)
Definition demo_typing : list event :=
  [Mount; StartSettled (Resolved demo_start_body) (lit "m1");
   Change (lit "  a latte ")].

(** The message was sent and the answer is still awaited. *)
Definition demo_waiting : list event :=
  (demo_typing ++ [Submit (lit "m2")])%list.

(** The back end answered that the order is placed. *)
Definition demo_done : list event :=
  (demo_waiting ++ [ChatSettled (Resolved demo_final_body) (lit "m3")])%list.

(** The very first start request failed and the visitor typed anyway. *)
Definition demo_offline : list event :=
  [Mount; StartSettled Rejected (lit "m1"); Change (lit "hi")].

(** *** [generateId] *)

(** An integer below 10^21 printed by a template literal: plain decimal. *)
Definition decimal (n : N) : jstring :=
  lit (NilEmpty.string_of_uint (N.to_uint n)).

(** [s.slice(first, last)] for [0 <= first <= last]. *)
Definition slice (first last : nat) (s : jstring) : jstring :=
  take (last - first) (drop first s).

(** [generateId]: [now] is the value of [Date.now()], a count of
    milliseconds, and [random36] is the string
    [Math.random().toString(36)], both supplied by the runtime. *)
Definition generateId (now : N) (random36 : jstring) : jstring :=
  (decimal now ++ lit "-" ++ slice 2 9 random36)%list.

(** *** The shape of the transcript *)

Definition role_eqb (a b : Role) : bool :=
  match a, b with
  | user, user | assistant, assistant => true
  | _, _ => false
  end.

Definition other_role (r : Role) : Role :=
  match r with user => assistant | assistant => user end.

(** The roles of [ms] alternate, starting with [first]. *)
Fixpoint alternates (first : Role) (ms : list Message) : bool :=
  match ms with
  | [] => true
  | m :: rest => role_eqb (role m) first && alternates (other_role first) rest
  end.

(** The ids [generateId] is asked for while an event is handled. *)
Definition event_ids (e : event) : list jstring :=
  match e with
  | Submit mid | StartSettled _ mid | ChatSettled _ mid => [mid]
  | _ => []
  end.

Definition is_start_settled (e : event) : bool :=
  match e with StartSettled _ _ => true | _ => false end.

Definition restarts (e : event) : bool :=
  match e with StartSettled _ _ | ClickReset => true | _ => false end.

(** The full invariant of the event loop when the mount effect has run
    once: what is pending determines the loading flag, the parity of the
    transcript and whether the input can hold text. *)
Definition tidy (W : world) : Prop :=
  alternates assistant (messages (ui W)) = true /\
  match inflight W with
  | [] =>
      isLoading (ui W) = false /\
      (truthy (isFinished (ui W)) = true -> input (ui W) = []) /\
      (if mounted W then Nat.odd (length (messages (ui W))) = true
       else ui W = initial_state)
  | [CStart] =>
      mounted W = true /\ isLoading (ui W) = true /\
      truthy (isFinished (ui W)) = false /\
      messages (ui W) = [] /\ input (ui W) = []
  | [CChat] =>
      mounted W = true /\ isLoading (ui W) = true /\
      truthy (isFinished (ui W)) = false /\
      Nat.even (length (messages (ui W))) = true /\
      messages (ui W) <> [] /\ input (ui W) = []
  | _ => False
  end.

End Widget.

(** ** The rewrite configuration (frontend/next.config.mjs) *)

Module NextConfig.

(** [process.env.NEXT_PUBLIC_API_URL]: a string, or [None] when unset. *)
Abbreviation env := (option string).

(** [env || "http://localhost:8000"], line 23 of page.tsx: the empty string
    is falsy. *)
Definition API_URL (e : env) : string :=
  match e with
  | Some EmptyString | None => "http://localhost:8000"
  | Some s => s
  end.

Record rewrite : Type := mkRewrite {
  source : string;
  destination : string
}.

(** [rewrites()] of next.config.mjs. *)
Definition rewrites (e : env) : list rewrite :=
  [{| source := "/api/:path*";
      destination :=
        match e with
        | Some EmptyString | None => "http://localhost:8000/:path*"
        | Some s => s ++ "/:path*"
        end |}].

End NextConfig.

(** ** The ordering back end

    The Python back end (FastAPI application and LangGraph agent) is known
    through the README's outline of its state, tools and flow, and through
    the written specification.  The definitions below follow the
    specification, section by section. *)

Module Backend.

Open Scope Z_scope.

(** *** Data model *)

(** Modelled from the spec: the back end's menu entry (MenuItem, data model).
    The item name is the key of the catalog; prices are decimals, held here
    in minor currency units. *)
Record MenuItem : Type := mkMenuItem {
  basePrice : Z;
  modifiers : gmap string Z
}.

(** Modelled from the spec: the back end's OrderLine. *)
Record OrderLine : Type := mkOrderLine {
  item : string;
  quantity : Z;
  line_modifiers : gset string;
  linePrice : Z
}.

(** Modelled from the spec: the back end's order status. *)
Inductive Status : Type := open | confirmed | placed.

(** Modelled from the spec: the back end's Order, an ordered ledger of lines
    and a status. *)
Record Order : Type := mkOrder {
  lines : list OrderLine;
  status : Status
}.

Definition empty_order : Order := {| lines := []; status := open |}.

(** Modelled from the spec: the back end's tool set (component design, tool
    table), after schema validation of the arguments. *)
Inductive Tool : Type :=
| get_menu
| add_to_order (item_name : string) (qty : Z) (mods : gset string)
| get_order
| calculate_total
| confirm_order
| place_order.

(** Modelled from the spec: the back end's error taxonomy. *)
Inductive Error : Type :=
| SessionNotFoundError
| OrderAlreadyFinishedError
| InvalidToolCallError
| ToolLoopExceededError
| UnknownItemError
| UnknownModifierError
| EmptyOrderError
| OrderNotConfirmedError.

(** Modelled from the spec: the structured data a back-end tool returns next
    to its text. *)
Inductive ToolData : Type :=
| MenuData (catalog : gmap string MenuItem)
| LineAdded (line : OrderLine)
| OrderData (ls : list OrderLine) (subtotal : Z)
| TotalData (subtotal tax total : Z)
| ConfirmData (ls : list OrderLine) (subtotal : Z)
| PlacedData (ls : list OrderLine).

(** Modelled from the spec: the back end's message roles. *)
Inductive Role : Type := user | assistant | tool.

(** Modelled from the spec: the back end's transcript Message, with the
    optional tool-result payload. *)
Record Message : Type := mkMessage {
  role : Role;
  content : string;
  payload : option (Tool * ToolData)
}.

(** Modelled from the spec: the back end's Session; its id is its key in the
    session store. *)
Record Session : Type := mkSession {
  transcript : list Message;
  order : Order;
  finished : bool
}.

(** Modelled from the spec: the back end's raw arguments of a tool
    invocation requested by the model, before validation. *)
Inductive ArgValue : Type :=
| AStr (s : string)
| AInt (n : Z)
| AStrs (l : list string).

(** Modelled from the spec: the answer of the hosted model, a black box that
    returns plain text or a structured tool invocation (design notes). *)
Inductive ModelResponse : Type :=
| Text (t : string)
| ToolCall (name : string) (args : gmap string ArgValue).

(** The hosted model: whatever it answers to a transcript. *)
Abbreviation Model := (list Message -> ModelResponse).

(** Modelled from the spec: the choice the spec leaves to the implementer for
    a chat call on a finished session. *)
Inductive FinishedPolicy : Type := RejectFinished | EchoFinished.

(** Modelled from the spec: the back end's constants, which the
    specification leaves open: the catalog, the loop bound, the tax rule,
    the wording of results and apologies, and the finished-session policy. *)
Record Config : Type := mkConfig {
  menu : gmap string MenuItem;
  max_iterations : nat;
  tax : Z -> Z;
  render : ToolData -> string;
  apology : Error -> string;
  finished_policy : FinishedPolicy
}.

(** *** Tool set *)

(** Modelled from the spec: the back end's sum of the price deltas of a
    set of modifiers of an item. *)
Definition modifier_total (it : MenuItem) (mods : gset string) : Z :=
  set_fold (fun m acc => default 0 (modifiers it !! m) + acc) 0 mods.

(** Modelled from the spec: the back end's derived line price,
    (base price + sum of the modifier deltas) x quantity. *)
Definition line_price (it : MenuItem) (qty : Z) (mods : gset string) : Z :=
  (basePrice it + modifier_total it mods) * qty.

(** Modelled from the spec: the back end's running subtotal of a ledger. *)
Definition subtotal_of (ls : list OrderLine) : Z :=
  foldr (fun l acc => linePrice l + acc) 0 ls.

(** Modelled from the spec: the back end's tool table.  Each tool maps the
    order and its arguments to a failure, or to its result and the order it
    leaves. *)
Definition execute_tool (cfg : Config) (t : Tool) (o : Order)
  : Error + (ToolData * Order) :=
  match t with
  | get_menu => inr (MenuData (menu cfg), o)
  | add_to_order name qty mods =>
      match menu cfg !! name with
      | None => inl UnknownItemError
      | Some it =>
          if bool_decide (mods ⊆ dom (modifiers it)) then
            let l := {| item := name; quantity := qty; line_modifiers := mods;
                        linePrice := line_price it qty mods |} in
            inr (LineAdded l, {| lines := lines o ++ [l]; status := status o |})
          else inl UnknownModifierError
      end
  | get_order => inr (OrderData (lines o) (subtotal_of (lines o)), o)
  | calculate_total =>
      let sub := subtotal_of (lines o) in
      inr (TotalData sub (tax cfg sub) (sub + tax cfg sub), o)
  | confirm_order =>
      match lines o with
      | [] => inl EmptyOrderError
      | _ :: _ =>
          inr (ConfirmData (lines o) (subtotal_of (lines o)),
               {| lines := lines o; status := confirmed |})
      end
  | place_order =>
      match status o with
      | confirmed =>
          inr (PlacedData (lines o), {| lines := lines o; status := placed |})
      | _ => inl OrderNotConfirmedError
      end
  end.

(** Modelled from the spec: the back end's schema validation of a requested
    tool invocation; [None] for an unknown tool name or malformed arguments
    (a quantity that is not a positive integer included). *)
Definition parse_call (name : string) (args : gmap string ArgValue)
  : option Tool :=
  let no_args (t : Tool) := if (size args =? 0)%nat then Some t else None in
  if String.eqb name "get_menu" then no_args get_menu
  else if String.eqb name "get_order" then no_args get_order
  else if String.eqb name "calculate_total" then no_args calculate_total
  else if String.eqb name "confirm_order" then no_args confirm_order
  else if String.eqb name "place_order" then no_args place_order
  else if String.eqb name "add_to_order" then
    match args !! "item", args !! "quantity", args !! "modifiers" with
    | Some (AStr i), Some (AInt q), Some (AStrs ms) =>
        if (size args =? 3)%nat && (0 <? q)
        then Some (add_to_order i q (list_to_set ms))
        else None
    | _, _, _ => None
    end
  else None.

(** The arguments of a well-formed [add_to_order] request. *)
Definition add_args (name : string) (qty : Z) (ms : list string)
  : gmap string ArgValue :=
  <["item" := AStr name]>
    (<["quantity" := AInt qty]> (<["modifiers" := AStrs ms]> ∅)).

Definition is_place (t : Tool) : bool :=
  match t with place_order => true | _ => false end.

(** *** Turn controller *)

(** Modelled from the spec: the back end's result of a turn, a reply with
    the finished flag or a failure with its user-visible message. *)
Inductive TurnResult : Type :=
| Replied (response : string) (fin : bool)
| Failed (e : Error) (message : string).

(** What one iteration of the loop did with the model's answer (kept as a
    record of the turn). *)
Inductive Round : Type :=
| SaidText (t : string)
| BadCall (name : string) (args : gmap string ArgValue)
| ToolFailed (t : Tool) (e : Error)
| ToolDone (t : Tool) (d : ToolData).

(** Modelled from the spec: the back end's appending of a plain message to
    the transcript. *)
Definition say (r : Role) (text : string) (s : Session) : Session :=
  {| transcript := transcript s ++ [mkMessage r text None];
     order := order s; finished := finished s |}.

(** Modelled from the spec: the back end's session after a tool succeeded:
    the tool-result message is appended, the order is the one the tool
    left, and place_order sets the flag. *)
Definition commit (cfg : Config) (t : Tool) (d : ToolData) (o' : Order)
    (s : Session) : Session :=
  {| transcript := transcript s ++ [mkMessage tool (render cfg d) (Some (t, d))];
     order := o';
     finished := finished s || is_place t |}.

(** Modelled from the spec: the back end's execution of a validated tool
    against the session's order; a failure leaves the session as it is. *)
Definition invoke (cfg : Config) (t : Tool) (s : Session)
  : Error + (ToolData * Session) :=
  match execute_tool cfg t (order s) with
  | inl e => inl e
  | inr (d, o') => inr (d, commit cfg t d o' s)
  end.

(** Modelled from the spec: the back end's tools whose effect in the tool
    table is a change of the order. *)
Definition mutates (t : Tool) : bool :=
  match t with
  | add_to_order _ _ _ | confirm_order | place_order => true
  | get_menu | get_order | calculate_total => false
  end.

(** Modelled from the spec: the back end's guard for the session invariant
    of the data model: once the finished flag is raised no further mutation
    of the order is permitted.  A tool that changes the order, requested
    after the flag is raised, is refused with OrderAlreadyFinishedError and
    the session stays as it is; every other request is executed. *)
Definition attempt (cfg : Config) (t : Tool) (s : Session)
  : Error + (ToolData * Session) :=
  if finished s && mutates t then inl OrderAlreadyFinishedError
  else invoke cfg t s.

(** Modelled from the spec: the back end's bounded tool loop of [chat]
    (turn controller, algorithm and tie-break policy).  It returns the
    session as the turn leaves it, the outcome, and one [Round] per model
    round trip. *)
Fixpoint loop (cfg : Config) (model : Model) (fuel : nat) (s : Session)
  : Session * TurnResult * list Round :=
  match fuel with
  | O => (s, Failed ToolLoopExceededError (apology cfg ToolLoopExceededError), [])
  | S fuel' =>
      match model (transcript s) with
      | Text t => (say assistant t s, Replied t (finished s), [SaidText t])
      | ToolCall name args =>
          match parse_call name args with
          | None =>
              (s, Failed InvalidToolCallError (apology cfg InvalidToolCallError),
               [BadCall name args])
          | Some t =>
              match attempt cfg t s with
              | inl e =>
                  (say assistant (apology cfg e) s,
                   Replied (apology cfg e) (finished s),
                   [ToolFailed t e])
              | inr (d, s1) =>
                  let '(s', res, rounds) := loop cfg model fuel' s1 in
                  (s', res, ToolDone t d :: rounds)
              end
          end
      end
  end.

(** Modelled from the spec: the back end's turn on a live session: the
    user message is appended, then the loop runs. *)
Definition turn (cfg : Config) (model : Model) (s : Session) (message : string)
  : Session * TurnResult * list Round :=
  loop cfg model (max_iterations cfg) (say user message s).

Definition is_assistant (m : Message) : bool :=
  match role m with assistant => true | _ => false end.

(** Modelled from the spec: the back end's last state echoed for a
    finished session, the final assistant message of the transcript. *)
Definition last_reply (s : Session) : string :=
  default "" (content <$> last (List.filter is_assistant (transcript s))).

(** *** Session store *)

(** Modelled from the spec: the back end's [start()]: a new session under a
    fresh id, opened by the model's greeting.  No tool call is expected on
    this turn; one is treated as an invalid call and no session is kept. *)
Definition start (cfg : Config) (model : Model) (store : gmap string Session)
  : gmap string Session * (Error + (string * string * bool)) :=
  let sid : string := fresh (dom store) in
  match model [] with
  | Text t =>
      (<[sid := say assistant t
                  {| transcript := []; order := empty_order; finished := false |}]>
         store,
       inr (sid, t, false))
  | ToolCall _ _ => (store, inl InvalidToolCallError)
  end.

(** Modelled from the spec: the back end's [chat(session_id, message)]. *)
Definition chat (cfg : Config) (model : Model) (store : gmap string Session)
    (session_id message : string) : gmap string Session * TurnResult :=
  match store !! session_id with
  | None => (store, Failed SessionNotFoundError (apology cfg SessionNotFoundError))
  | Some s =>
      if finished s then
        match finished_policy cfg with
        | RejectFinished =>
            (store,
             Failed OrderAlreadyFinishedError (apology cfg OrderAlreadyFinishedError))
        | EchoFinished => (store, Replied (last_reply s) true)
        end
      else
        let '(s', res, _) := turn cfg model s message in
        (<[session_id := s']> store, res)
  end.

(** *** HTTP shim *)

(** Modelled from the spec: the back end's JSON response bodies. *)
Inductive HttpBody : Type :=
| StartBody (session_id response : string) (fin : bool)
| ChatBody (response : string) (fin : bool)
| ErrorBody (error : string).

(** Modelled from the spec: the back end's HTTP response, in the 2xx class
    or outside it. *)
Inductive HttpResponse : Type :=
| Http2xx (b : HttpBody)
| HttpNon2xx (b : HttpBody).

(** Modelled from the spec: the back end's POST /start. *)
Definition http_start (cfg : Config) (model : Model) (store : gmap string Session)
  : gmap string Session * HttpResponse :=
  match start cfg model store with
  | (store', inr (sid, resp, fin)) => (store', Http2xx (StartBody sid resp fin))
  | (store', inl e) => (store', HttpNon2xx (ErrorBody (apology cfg e)))
  end.

(** Modelled from the spec: the back end's POST /chat with body
    [{message, session_id}]. *)
Definition http_chat (cfg : Config) (model : Model) (store : gmap string Session)
    (message session_id : string) : gmap string Session * HttpResponse :=
  match chat cfg model store session_id message with
  | (store', Replied resp fin) => (store', Http2xx (ChatBody resp fin))
  | (store', Failed e msg) => (store', HttpNon2xx (ErrorBody msg))
  end.

(** Modelled from the spec: the back end's process-wide session store over
    time.  The stores the service can be in: empty at process start, then any
    sequence of start and chat calls, the model answering as it pleases. *)
Inductive reachable (cfg : Config) : gmap string Session -> Prop :=
| reach_boot : reachable cfg ∅
| reach_start model store :
    reachable cfg store -> reachable cfg (start cfg model store).1
| reach_chat model store sid message :
    reachable cfg store -> reachable cfg (chat cfg model store sid message).1.




(** The session obtained by executing, in sequence, the tools of the rounds
    that succeeded: the session at the moment the next request is made. *)
Definition after_rounds (cfg : Config) (rounds : list Round) (s : Session)
  : Session :=
  foldl (fun acc r =>
           match r with
           | ToolDone t _ =>
               match attempt cfg t acc with
               | inr (_, s1) => s1
               | inl _ => acc
               end
           | _ => acc
           end) s rounds.



(** *** Sample deployment for the examples *)

Definition demo_menu : gmap string MenuItem :=
  <["latte" := {| basePrice := 450;
                  modifiers := <["large" := 50]> (<["oat milk" := 70]> ∅) |}]>
    (<["espresso" := {| basePrice := 300; modifiers := ∅ |}]> ∅).

Definition demo_cfg : Config :=
  {| menu := demo_menu;
     max_iterations := 3;
     tax := fun sub => sub * 8 / 100;
     render := fun _ => "done";
     apology := fun _ => "Sorry, I could not do that.";
     finished_policy := RejectFinished |}.

Definition latte_args : gmap string ArgValue := add_args "latte" 2 ["large"].

Definition unicorn_args : gmap string ArgValue := add_args "unicorn frappe" 1 [].

(** A model that greets, then orders and confirms two lattes on the first
    user message and, on the second, places the order and continues with
    the answers of [later]. *)
Definition scripted (later : list ModelResponse) : Model :=
  fun tr =>
    match length tr with
    | 0%nat => Text "Welcome!"
    | 2%nat => ToolCall "add_to_order" latte_args
    | 3%nat => ToolCall "confirm_order" ∅
    | 4%nat => Text "Shall I place it?"
    | 6%nat => ToolCall "place_order" ∅
    | n => nth (n - 7) later (Text "")
    end.

(** A model that asks for an item the catalog does not have. *)
Definition confused : Model :=
  fun tr =>
    match length tr with
    | 0%nat => Text "Welcome!"
    | _ => ToolCall "add_to_order" unicorn_args
    end.

(** After placing: ask to confirm once more. *)
Definition reconfirming : Model :=
  scripted [ToolCall "confirm_order" ∅; Text "Your order is placed."].

(** A model that adds two lattes and then asks for an item the catalog does
    not have, in the same turn. *)
Definition half_confused : Model :=
  fun tr =>
    match length tr with
    | 0%nat => Text "Welcome!"
    | 2%nat => ToolCall "add_to_order" latte_args
    | _ => ToolCall "add_to_order" unicorn_args
    end.

(** After placing: keep looking at the order. *)
Definition browsing : Model :=
  scripted [ToolCall "get_order" ∅; ToolCall "get_order" ∅].

Definition store_started : gmap string Session :=
  (start demo_cfg (scripted []) ∅).1.

(** The first session id handed out. *)
Definition sid0 : string := fresh (dom (∅ : gmap string Session)).

Definition store_confirmed : gmap string Session :=
  (chat demo_cfg (scripted []) store_started sid0 "two large lattes").1.

Definition store_reconfirmed : gmap string Session :=
  (chat demo_cfg reconfirming store_confirmed sid0 "place it").1.

Definition session_of (store : gmap string Session) : Session :=
  default {| transcript := []; order := empty_order; finished := false |}
          (store !! sid0).

Definition demo_latte : MenuItem :=
  {| basePrice := 450;
     modifiers := <["large" := 50]> (<["oat milk" := 70]> ∅) |}.

(** The turn that places the order and then exhausts the bound. *)
Definition turn_exhausted : Session * TurnResult * list Round :=
  turn demo_cfg browsing (session_of store_confirmed) "place it".

(** The turn that asks for an item the catalog does not have. *)
Definition turn_confused : Session * TurnResult * list Round :=
  turn demo_cfg confused (session_of store_started) "a unicorn frappe".

(** The turn that adds two lattes and then fails on the unknown item. *)
Definition turn_half_confused : Session * TurnResult * list Round :=
  turn demo_cfg half_confused (session_of store_started)
       "two lattes and a unicorn frappe".

(** The session of [turn_half_confused] when the failing request is made. *)
Definition before_unicorn : Session :=
  after_rounds demo_cfg (removelast turn_half_confused.2)
    (say user "two lattes and a unicorn frappe" (session_of store_started)).

End Backend.

(* ===================================================================== *)
(** * Part II.  Theorems                                                  *)
(* ===================================================================== *)

(** ** The chat widget *)

Module WidgetFacts.
Import Widget.

Local Open Scope list_scope.

(** *** [trim] *)

Lemma trim_start_split (s : jstring) :
  exists pre, s = pre ++ trim_start s /\ forallb is_whitespace pre = true.
Proof.
  induction s as [|c s IH]; simpl.
  - exists []. split; reflexivity.
  - destruct (is_whitespace c) eqn:Hc.
    + destruct IH as (pre & Hs & Hpre).
      exists (c :: pre). simpl. rewrite Hc, Hpre. split; [congruence | reflexivity].
    + exists []. split; reflexivity.
Qed.

Lemma trim_start_head (s : jstring) c r :
  trim_start s = c :: r -> is_whitespace c = false.
Proof.
  induction s as [|a s IH]; simpl; [discriminate|].
  destruct (is_whitespace a) eqn:Ha; [exact IH|].
  intros [= <- _]. exact Ha.
Qed.

Lemma trim_start_nil (s : jstring) :
  trim_start s = [] <-> forallb is_whitespace s = true.
Proof.
  induction s as [|a s IH]; simpl; [tauto|].
  destruct (is_whitespace a); simpl; [exact IH|].
  split; discriminate.
Qed.

Lemma forallb_rev {A} (f : A -> bool) (l : list A) :
  forallb f (rev l) = forallb f l.
Proof.
  induction l as [|a l IH]; simpl; [reflexivity|].
  rewrite forallb_app, IH. simpl. rewrite andb_true_r. apply andb_comm.
Qed.

Lemma trim_nil (s : jstring) :
  trim s = [] <-> forallb is_whitespace s = true.
Proof.
  unfold trim. destruct (trim_start_split s) as (pre & Hs & Hpre).
  split.
  - intros H. apply (f_equal (@rev N)) in H. rewrite rev_involutive in H.
    simpl in H. apply trim_start_nil in H. rewrite forallb_rev in H.
    rewrite Hs, forallb_app, Hpre, H. reflexivity.
  - intros H. apply trim_start_nil in H. rewrite H. reflexivity.
Qed.

(** A trimmed string that is not empty starts and ends with a code unit
    that is not white space. *)
Lemma trim_ends (s : jstring) :
  trim s <> [] ->
  (exists c r, trim s = c :: r /\ is_whitespace c = false) /\
  (exists r c, trim s = r ++ [c] /\ is_whitespace c = false).
Proof.
  unfold trim. intros Hne.
  set (t := trim_start s) in *.
  destruct (trim_start (rev t)) as [|c u] eqn:Hu; [contradiction|].
  pose proof (trim_start_head _ _ _ Hu) as Hc.
  split.
  - destruct (trim_start_split (rev t)) as (pre & Ht & _).
    rewrite Hu in Ht. apply (f_equal (@rev N)) in Ht.
    rewrite rev_involutive, rev_app_distr in Ht.
    destruct t as [|a t'] eqn:Et.
    { destruct (rev (c :: u)) eqn:E; [|discriminate].
      apply (f_equal (@length N)) in E. rewrite length_rev in E. discriminate. }
    assert (Ha : is_whitespace a = false) by (apply (trim_start_head s a t'); exact Et).
    destruct (rev (c :: u)) as [|x xs] eqn:E.
    { apply (f_equal (@length N)) in E. rewrite length_rev in E. discriminate. }
    simpl in Ht. injection Ht as -> _. exists x, xs. split; [reflexivity|exact Ha].
  - exists (rev u), c. split; [reflexivity|exact Hc].
Qed.

Lemma trim_not_blank (s : jstring) :
  trim s <> [] -> forallb is_whitespace (trim s) = false.
Proof.
  intros H. destruct (trim_ends s H) as [(c & r & -> & Hc) _].
  simpl. rewrite Hc. reflexivity.
Qed.

Section Facts.

Variable API_URL : string.

Local Abbreviation step := (step API_URL).
Local Abbreviation run := (run API_URL).
Local Abbreviation sendMessage := (sendMessage API_URL).
Local Abbreviation chat_request := (chat_request API_URL).
Local Abbreviation start_request := (start_request API_URL).
Local Abbreviation boot := (boot API_URL).

(** *** The invariant of the event loop *)

Lemma inv_unmounted : inv unmounted.
Proof. reflexivity. Qed.

Lemma sendMessage_busy mid w :
  is_empty (trim (input w)) || isLoading w || truthy (isFinished w) = true ->
  sendMessage mid w = (w, None).
Proof. unfold Widget.sendMessage. intros ->. reflexivity. Qed.

Lemma sendMessage_cases mid w :
  (is_empty (trim (input w)) || isLoading w || truthy (isFinished w) = true /\
   sendMessage mid w = (w, None)) \/
  (trim (input w) <> [] /\ isLoading w = false /\ truthy (isFinished w) = false /\
   sendMessage mid w =
     ({| messages := messages w ++ [mkMessage mid user (JV (JStr (trim (input w))))];
         input := []; isLoading := true;
         sessionId := sessionId w; isFinished := isFinished w |},
      Some (chat_request (trim (input w)) (sessionId w)))).
Proof.
  unfold Widget.sendMessage.
  destruct (is_empty (trim (input w))) eqn:E1; [left; auto|].
  destruct (isLoading w) eqn:E2; [left; auto|].
  destruct (truthy (isFinished w)) eqn:E3; [left; auto|].
  right. simpl. repeat split; try reflexivity.
  intros H. rewrite H in E1. discriminate.
Qed.

Ltac inv_cases fl HI :=
  destruct fl as [|[] [|? ?]]; simpl in *;
  intuition (subst; simpl in *; try discriminate; try congruence; auto).

Lemma inv_step W e W' rqs : inv W -> step W e = Some (W', rqs) -> inv W'.
Proof.
  unfold inv. intros HI Hs.
  destruct W as [m w fl]. simpl in *.
  destruct e as [|v|mid| |r mid|r mid]; simpl in Hs.
  - (* Mount *)
    destruct m; [discriminate|]. injection Hs as <- _. simpl.
    inv_cases fl HI.
  - (* Change *)
    destruct m; [|discriminate].
    unfold render in Hs.
    destruct (truthy (isFinished w)) eqn:Hf; [discriminate|].
    destruct (isLoading w) eqn:Hl; [discriminate|].
    injection Hs as <- _. simpl.
    inv_cases fl HI.
  - (* Submit *)
    destruct m; [|discriminate].
    destruct (sendMessage_cases mid w) as [(_ & Hsm)|(Hne & Hl & Hf & Hsm)];
      rewrite Hsm in Hs; injection Hs as <- _; simpl.
    + exact HI.
    + inv_cases fl HI.
  - (* ClickReset *)
    destruct m; [|discriminate].
    unfold render in Hs.
    destruct (truthy (isFinished w)) eqn:Hf; [|discriminate].
    injection Hs as <- _. simpl.
    inv_cases fl HI.
  - (* StartSettled *)
    destruct fl as [|[] [|? ?]]; simpl in *; try contradiction; try discriminate.
    injection Hs as <- _. simpl. destruct HI as (-> & _). exact I.
  - (* ChatSettled *)
    destruct fl as [|[] [|? ?]]; simpl in *; try contradiction; try discriminate.
    destruct (sendMessage_settle r mid w); [|discriminate].
    injection Hs as <- _. simpl. destruct HI as (-> & _). exact I.
Qed.

Lemma run_app evs1 evs2 W :
  run (evs1 ++ evs2) W =
  match run evs1 W with
  | Some (W1, r1) =>
      match run evs2 W1 with
      | Some (W2, r2) => Some (W2, r1 ++ r2)
      | None => None
      end
  | None => None
  end.
Proof.
  revert W. induction evs1 as [|e evs1 IH]; intros W; simpl.
  - destruct (run evs2 W) as [[W2 r2]|]; reflexivity.
  - destruct (step W e) as [[W' r]|]; [|reflexivity].
    rewrite IH. destruct (run evs1 W') as [[W1 r1]|]; [|reflexivity].
    destruct (run evs2 W1) as [[W2 r2]|]; [|reflexivity].
    rewrite app_assoc. reflexivity.
Qed.

Lemma inv_run evs W W' rqs : inv W -> run evs W = Some (W', rqs) -> inv W'.
Proof.
  revert W rqs. induction evs as [|e evs IH]; intros W rqs HI; simpl.
  - intros [= <- _]. exact HI.
  - destruct (step W e) as [[W1 r1]|] eqn:Hs; [|discriminate].
    destruct (run evs W1) as [[W2 r2]|] eqn:Hr; [|discriminate].
    intros [= <- _]. eapply IH; [|exact Hr]. eapply inv_step; eauto.
Qed.

Lemma inv_reachable evs W rqs : run evs unmounted = Some (W, rqs) -> inv W.
Proof. apply inv_run, inv_unmounted. Qed.

(** *** Requests *)

Lemma step_submit W mid W' out :
  step W (Submit mid) = Some (W', out) ->
  mounted W = true /\
  ((is_empty (trim (input (ui W))) || isLoading (ui W)
      || truthy (isFinished (ui W)) = true /\ W' = W /\ out = []) \/
   (trim (input (ui W)) <> [] /\ isLoading (ui W) = false /\
    truthy (isFinished (ui W)) = false /\
    out = [chat_request (trim (input (ui W))) (sessionId (ui W))] /\
    inflight W' = inflight W ++ [CChat])).
Proof.
  destruct W as [m w fl]. simpl. destruct m; [|discriminate].
  split; [reflexivity|].
  destruct (sendMessage_cases mid w) as [(Hb & Hsm)|(Hne & Hl & Hf & Hsm)];
    rewrite Hsm in H; injection H as <- <-.
  - left. auto.
  - right. auto.
Qed.

Lemma started_session_app evs1 evs2 acc :
  started_session (evs1 ++ evs2) acc =
  started_session evs2 (started_session evs1 acc).
Proof.
  revert acc. induction evs1 as [|e evs1 IH]; intros acc; simpl; [reflexivity|].
  destruct e as [|v|mid| |[|data] mid|r mid]; try apply IH.
  destruct (get_prop data "session_id"); apply IH.
Qed.

Lemma step_session W e W' out :
  step W e = Some (W', out) ->
  sessionId (ui W') = started_session [e] (sessionId (ui W)).
Proof.
  destruct W as [m w fl]. destruct e as [|v|mid| |r mid|r mid]; simpl.
  - destruct m; [discriminate|]. intros [= <- _]. reflexivity.
  - destruct m; [|discriminate]. destruct (render w) as [|[] ?]; try discriminate.
    intros [= <- _]. reflexivity.
  - destruct m; [|discriminate].
    destruct (sendMessage_cases mid w) as [(_ & Hsm)|(_ & _ & _ & Hsm)];
      rewrite Hsm; intros [= <- _]; reflexivity.
  - destruct m; [|discriminate]. destruct (render w); try discriminate.
    intros [= <- _]. reflexivity.
  - destruct (take_out CStart fl); [|discriminate]. intros [= <- _]. simpl.
    destruct r as [|data]; [reflexivity|]. simpl.
    destruct (get_prop data "session_id") as [sid|] eqn:E1; [|reflexivity].
    destruct data; simpl in *; try discriminate; reflexivity.
  - destruct (take_out CChat fl); [|discriminate].
    destruct r as [|data]; simpl.
    + intros [= <- _]. reflexivity.
    + destruct (get_prop data "response"); [|discriminate].
      destruct (get_prop data "finished"); [|discriminate].
      intros [= <- _]. reflexivity.
Qed.

Lemma run_session evs W W' out :
  run evs W = Some (W', out) ->
  sessionId (ui W') = started_session evs (sessionId (ui W)).
Proof.
  revert W out. induction evs as [|e evs IH]; intros W out; simpl.
  - intros [= <- _]. reflexivity.
  - destruct (step W e) as [[W1 r1]|] eqn:Hs; [|discriminate].
    destruct (run evs W1) as [[W2 r2]|] eqn:Hr; [|discriminate].
    intros [= <- _]. rewrite (IH _ _ Hr), (step_session _ _ _ _ Hs).
    symmetry. apply (started_session_app [e] evs).
Qed.

(** *** The chat request and what is read of its response *)

(** C7, as the code has it.  Every chat request the widget issues is a POST
    to the /chat endpoint with content type JSON whose body holds [message],
    the trimmed input, and [session_id], the widget's current session id:
    the [session_id] of the last start response taken since the page was
    mounted or reset, [null] when no start has succeeded since then, and no
    field at all when that response had no [session_id].  Of a chat
    response the widget reads the fields [response] and [finished] and
    nothing else. *)
Theorem chat_request_shape evs W rqs mid W' out :
  run evs unmounted = Some (W, rqs) ->
  step W (Submit mid) = Some (W', out) ->
  (out = [] \/
   exists rq, out = [rq] /\
     url rq = (API_URL ++ "/chat")%string /\
     method rq = "POST"%string /\
     headers rq = [("Content-Type", "application/json")]%string /\
     body rq =
       Some (JObj (("message"%string, JStr (trim (input (ui W)))) ::
                   match started_session evs (JV JNull) with
                   | JUndefined => []
                   | JV j => [("session_id"%string, j)]
                   end))) /\
  (forall data1 data2 m w,
     get_prop data1 "response" = get_prop data2 "response" ->
     get_prop data1 "finished" = get_prop data2 "finished" ->
     sendMessage_settle (Resolved data1) m w =
     sendMessage_settle (Resolved data2) m w) /\
  (forall data m w w',
     sendMessage_settle (Resolved data) m w = Some w' ->
     exists resp fin,
       get_prop data "response" = Some resp /\
       get_prop data "finished" = Some fin /\
       messages w' = messages w ++ [mkMessage m assistant resp] /\
       isFinished w' = fin).
Proof.
  intros Hrun Hstep. split; [|split].
  - destruct (step_submit _ _ _ _ Hstep) as (_ & [(_ & _ & ->)|(_ & _ & _ & -> & _)]).
    + left. reflexivity.
    + right. eexists. split; [reflexivity|].
      pose proof (run_session _ _ _ _ Hrun) as Hsid.
      change (sessionId (ui unmounted)) with (JV JNull) in Hsid.
      rewrite <- Hsid. simpl. repeat split; reflexivity.
  - intros data1 data2 m w H1 H2. simpl. rewrite H1, H2. reflexivity.
  - intros data m w w' H. simpl in H.
    destruct (get_prop data "response") as [resp|]; [|discriminate].
    destruct (get_prop data "finished") as [fin|]; [|discriminate].
    injection H as <-. exists resp, fin. repeat split; reflexivity.
Qed.

(** *** A finished order *)




(** *** One request at a time, never an empty message *)

(** With the mount effect run once: at most one request is pending, and a
    request is issued only when none is. *)
Lemma one_request_production evs W rqs :
  run evs unmounted = Some (W, rqs) ->
  (length (inflight W) <= 1)%nat /\
  (forall e W' out,
     step W e = Some (W', out) ->
     (out <> [] -> inflight W = [] /\ length (inflight W') = 1%nat) /\
     forall rq, In rq out ->
       rq = start_request \/
       exists m, rq = chat_request m (sessionId (ui W)) /\
                 m = trim (input (ui W)) /\ m <> [] /\
                 forallb is_whitespace m = false) /\
  (forall mid w,
     forallb is_whitespace (input w) || isLoading w = true ->
     sendMessage mid w = (w, None)) /\
  (forall w d b,
     render w = InputForm d b ->
     b = isLoading w || forallb is_whitespace (input w)).
Proof.
  intros Hrun. pose proof (inv_reachable _ _ _ Hrun) as HI.
  split; [|split; [|split]].
  - unfold inv in HI. destruct (inflight W) as [|[] [|? ?]]; simpl; try lia; contradiction.
  - intros e W' out Hs. pose proof (inv_step _ _ _ _ HI Hs) as HI'.
    assert (Hfl : out <> [] -> inflight W = []).
    { intros Hout. unfold inv in HI.
      destruct W as [m w fl]. simpl in *.
      destruct e as [|v|mid| |r mid|r mid]; simpl in Hs.
      - destruct m; [discriminate|].
        destruct fl as [|[] [|? ?]]; simpl in *; try reflexivity;
          try contradiction; destruct HI as (HI & _); discriminate.
      - destruct m; [|discriminate]. destruct (render w) as [|[] ?]; try discriminate.
        injection Hs as _ <-. contradiction.
      - destruct m; [|discriminate].
        destruct (sendMessage_cases mid w) as [(_ & Hsm)|(_ & Hl & _ & Hsm)];
          rewrite Hsm in Hs; injection Hs as _ <-; [contradiction|].
        destruct fl as [|[] [|? ?]]; simpl in *; try reflexivity;
          try contradiction; destruct HI as (_ & HI & _); congruence.
      - destruct m; [|discriminate]. unfold render in Hs.
        destruct (truthy (isFinished w)) eqn:Hf; [|discriminate].
        destruct fl as [|[] [|? ?]]; simpl in *; try reflexivity; try contradiction.
        + destruct HI as (_ & _ & HI & _); congruence.
        + destruct HI as (_ & _ & HI); congruence.
      - destruct (take_out CStart fl); [|discriminate].
        injection Hs as _ <-. contradiction.
      - destruct (take_out CChat fl); [|discriminate].
        destruct (sendMessage_settle r mid w); [|discriminate].
        injection Hs as _ <-. contradiction. }
    split.
    + intros Hout. split; [auto|]. specialize (Hfl Hout).
      destruct W as [m w fl]. simpl in *. subst fl.
      destruct e as [|v|mid| |r mid|r mid]; simpl in Hs.
      * destruct m; [discriminate|]. injection Hs as <- _. reflexivity.
      * destruct m; [|discriminate]. destruct (render w) as [|[] ?]; try discriminate.
        injection Hs as _ <-. contradiction.
      * destruct m; [|discriminate].
        destruct (sendMessage_cases mid w) as [(_ & Hsm)|(_ & _ & _ & Hsm)];
          rewrite Hsm in Hs; injection Hs as <- <-; [contradiction|reflexivity].
      * destruct m; [|discriminate]. destruct (render w); try discriminate.
        injection Hs as <- _. reflexivity.
      * discriminate.
      * discriminate.
    + intros rq Hin.
      destruct W as [m w fl]. simpl in *.
      destruct e as [|v|mid| |r mid|r mid]; simpl in Hs.
      * destruct m; [discriminate|]. injection Hs as _ <-.
        destruct Hin as [<-|[]]. left. reflexivity.
      * destruct m; [|discriminate]. destruct (render w) as [|[] ?]; try discriminate.
        injection Hs as _ <-. destruct Hin.
      * destruct m; [|discriminate].
        destruct (sendMessage_cases mid w) as [(_ & Hsm)|(Hne & _ & _ & Hsm)];
          rewrite Hsm in Hs; injection Hs as _ <-; [destruct Hin|].
        destruct Hin as [<-|[]]. right. eexists. split; [reflexivity|].
        split; [reflexivity|]. split; [exact Hne|]. apply trim_not_blank, Hne.
      * destruct m; [|discriminate]. destruct (render w); try discriminate.
        injection Hs as _ <-. destruct Hin as [<-|[]]. left. reflexivity.
      * destruct (take_out CStart fl); [|discriminate].
        injection Hs as _ <-. destruct Hin.
      * destruct (take_out CChat fl); [|discriminate].
        destruct (sendMessage_settle r mid w); [|discriminate].
        injection Hs as _ <-. destruct Hin.
  - intros mid w H. apply sendMessage_busy.
    apply orb_true_iff in H. destruct H as [H| ->].
    + apply trim_nil in H. rewrite H. reflexivity.
    + rewrite orb_true_r. reflexivity.
  - intros w d b. unfold render.
    destruct (truthy (isFinished w)); [discriminate|].
    intros [= _ <-]. f_equal.
    destruct (trim (input w)) eqn:E; simpl.
    + symmetry. apply trim_nil, E.
    + destruct (forallb is_whitespace (input w)) eqn:F; [|reflexivity].
      apply trim_nil in F. congruence.
Qed.

Lemma take_out_length c l rest :
  take_out c l = Some rest -> length l = S (length rest).
Proof.
  revert rest. induction l as [|x l IH]; intros rest; simpl; [discriminate|].
  destruct (call_eqb c x); [intros [= <-]; reflexivity|].
  destruct (take_out c l) as [r|]; [|discriminate].
  intros [= <-]. simpl. rewrite (IH r eq_refl). reflexivity.
Qed.

Lemma startConversation_settle_idle r mid w :
  isLoading (startConversation_settle r mid w) = false.
Proof.
  destruct r as [|data]; simpl; [reflexivity|].
  destruct (get_prop data "session_id"), (get_prop data "response"),
    (get_prop data "finished"); reflexivity.
Qed.

Lemma sendMessage_settle_idle r mid w w' :
  sendMessage_settle r mid w = Some w' -> isLoading w' = false.
Proof.
  destruct r as [|data]; simpl.
  - intros [= <-]. reflexivity.
  - destruct (get_prop data "response"); [|discriminate].
    destruct (get_prop data "finished"); [|discriminate].
    intros [= <-]. reflexivity.
Qed.

Lemma loose_boot strict : loose (boot strict).
Proof.
  destruct strict; unfold loose; simpl.
  - repeat split; auto; discriminate.
  - repeat split; auto; try discriminate; lia.
Qed.

Lemma loose_step W e W' rqs : loose W -> step W e = Some (W', rqs) -> loose W'.
Proof.
  unfold loose. intros (Hn & Hidle & Hbusy & Hun) Hs.
  destruct W as [m w fl]. simpl in *.
  destruct e as [|v|mid| |r mid|r mid]; simpl in Hs.
  - (* Mount *)
    destruct m; [discriminate|]. injection Hs as <- _.
    specialize (Hun eq_refl). injection Hun as -> ->. simpl.
    repeat split; auto; discriminate.
  - (* Change *)
    destruct m; [|discriminate]. destruct (render w) as [|[] ?]; try discriminate.
    injection Hs as <- _. simpl. repeat split; auto; try discriminate;
      apply Hbusy; assumption.
  - (* Submit *)
    destruct m; [|discriminate].
    destruct (sendMessage_cases mid w) as [(_ & Hsm)|(Hne & Hl & Hf & Hsm)];
      rewrite Hsm in Hs; injection Hs as <- _; simpl.
    + repeat split; auto; try discriminate; apply Hbusy; assumption.
    + specialize (Hidle Hl). rewrite length_app. simpl.
      repeat split; try discriminate; try lia; try assumption.
      destruct fl; discriminate.
  - (* ClickReset *)
    destruct m; [|discriminate]. unfold render in Hs.
    destruct (truthy (isFinished w)) eqn:Hf; [|discriminate].
    injection Hs as <- _. simpl.
    assert (Hl : isLoading w = false).
    { destruct (isLoading w) eqn:E; [|reflexivity].
      destruct (Hbusy eq_refl) as (_ & H). congruence. }
    specialize (Hidle Hl). rewrite length_app. simpl.
    repeat split; try discriminate; try lia.
    destruct fl; discriminate.
  - (* StartSettled *)
    destruct (take_out CStart fl) as [rest|] eqn:Ht; [|discriminate].
    injection Hs as <- _. simpl.
    apply take_out_length in Ht. rewrite startConversation_settle_idle.
    repeat split; try discriminate; try lia.
    intros ->. specialize (Hun eq_refl). injection Hun as _ ->. discriminate.
  - (* ChatSettled *)
    destruct (take_out CChat fl) as [rest|] eqn:Ht; [|discriminate].
    destruct (sendMessage_settle r mid w) as [w1|] eqn:E; [|discriminate].
    injection Hs as <- _. simpl.
    apply take_out_length in Ht. rewrite (sendMessage_settle_idle _ _ _ _ E).
    repeat split; try discriminate; try lia.
    intros ->. specialize (Hun eq_refl). injection Hun as _ ->. discriminate.
Qed.

Lemma loose_run evs W W' rqs : loose W -> run evs W = Some (W', rqs) -> loose W'.
Proof.
  revert W rqs. induction evs as [|e evs IH]; intros W rqs HI; simpl.
  - intros [= <- _]. exact HI.
  - destruct (step W e) as [[W1 r1]|] eqn:Hs; [|discriminate].
    destruct (run evs W1) as [[W2 r2]|] eqn:Hr; [|discriminate].
    intros [= <- _]. eapply IH; [|exact Hr]. eapply loose_step; eauto.
Qed.

(** Whatever the world, what a step sends is the start request or a chat
    request with the trimmed input, which is not blank. *)
Lemma step_requests W e W' out :
  step W e = Some (W', out) ->
  forall rq, In rq out ->
    rq = start_request \/
    exists m, rq = chat_request m (sessionId (ui W)) /\
              m = trim (input (ui W)) /\ m <> [] /\
              forallb is_whitespace m = false.
Proof.
  intros Hs rq Hin. destruct W as [m w fl]. simpl in *.
  destruct e as [|v|mid| |r mid|r mid]; simpl in Hs.
  - destruct m; [discriminate|]. injection Hs as _ <-.
    destruct Hin as [<-|[]]. left. reflexivity.
  - destruct m; [|discriminate]. destruct (render w) as [|[] ?]; try discriminate.
    injection Hs as _ <-. destruct Hin.
  - destruct m; [|discriminate].
    destruct (sendMessage_cases mid w) as [(_ & Hsm)|(Hne & _ & _ & Hsm)];
      rewrite Hsm in Hs; injection Hs as _ <-; [destruct Hin|].
    destruct Hin as [<-|[]]. right. eexists. split; [reflexivity|].
    split; [reflexivity|]. split; [exact Hne|]. apply trim_not_blank, Hne.
  - destruct m; [|discriminate]. destruct (render w); try discriminate.
    injection Hs as _ <-. destruct Hin as [<-|[]]. left. reflexivity.
  - destruct (take_out CStart fl); [|discriminate].
    injection Hs as _ <-. destruct Hin.
  - destruct (take_out CChat fl); [|discriminate].
    destruct (sendMessage_settle r mid w); [|discriminate].
    injection Hs as _ <-. destruct Hin.
Qed.

(** A step that sends finds the widget not loading. *)
Lemma step_sends_idle W e W' out :
  loose W -> step W e = Some (W', out) -> out <> [] -> isLoading (ui W) = false.
Proof.
  intros (_ & _ & Hbusy & Hun) Hs Hout. destruct W as [m w fl]. simpl in *.
  destruct e as [|v|mid| |r mid|r mid]; simpl in Hs.
  - destruct m; [discriminate|]. specialize (Hun eq_refl).
    injection Hun as -> _. reflexivity.
  - destruct m; [|discriminate]. destruct (render w) as [|[] ?]; try discriminate.
    injection Hs as _ <-. contradiction.
  - destruct m; [|discriminate].
    destruct (sendMessage_cases mid w) as [(_ & Hsm)|(_ & Hl & _ & Hsm)];
      rewrite Hsm in Hs; injection Hs as _ <-; [contradiction|exact Hl].
  - destruct m; [|discriminate]. unfold render in Hs.
    destruct (truthy (isFinished w)) eqn:Hf; [|discriminate].
    destruct (isLoading w) eqn:E; [|reflexivity].
    destruct (Hbusy eq_refl) as (_ & H). congruence.
  - destruct (take_out CStart fl); [|discriminate].
    injection Hs as _ <-. contradiction.
  - destruct (take_out CChat fl); [|discriminate].
    destruct (sendMessage_settle r mid w); [|discriminate].
    injection Hs as _ <-. contradiction.
Qed.

(** C9, as the code has it.  When the mount effect has run once
    ([strict = false], a production build), at most one request is pending
    in every world the widget can reach, and a request is issued only when
    none is.  After the doubled mount effect of the development server
    ([strict = true]) up to two requests are pending, and at most one while
    the widget is not loading.  In either case a request is issued only
    while the widget is not loading, and it is the start request or a chat
    request whose message is the trimmed input, which is neither empty nor
    made of white space only.  [sendMessage] changes nothing and sends
    nothing when the input is empty or white space only, or when a request
    is loading, and whenever the form is shown its Send button is disabled
    under exactly these conditions. *)
Theorem one_request_no_blank_message (strict : bool) evs W rqs :
  run evs (boot strict) = Some (W, rqs) ->
  (length (inflight W) <= if strict then 2 else 1)%nat /\
  (isLoading (ui W) = false ->
   (length (inflight W) <= if strict then 1 else 0)%nat) /\
  (forall e W' out,
     step W e = Some (W', out) ->
     (out <> [] ->
      isLoading (ui W) = false /\
      (strict = false -> inflight W = [] /\ length (inflight W') = 1%nat)) /\
     forall rq, In rq out ->
       rq = start_request \/
       exists m, rq = chat_request m (sessionId (ui W)) /\
                 m = trim (input (ui W)) /\ m <> [] /\
                 forallb is_whitespace m = false) /\
  (forall mid w,
     forallb is_whitespace (input w) || isLoading w = true ->
     sendMessage mid w = (w, None)) /\
  (forall w d b,
     render w = InputForm d b ->
     b = isLoading w || forallb is_whitespace (input w)).
Proof.
  intros Hrun.
  pose proof (loose_run _ _ _ _ (loose_boot strict) Hrun) as HL.
  assert (Hprod : strict = false ->
    (length (inflight W) <= 1)%nat /\
    (isLoading (ui W) = false -> inflight W = []) /\
    (forall e W' out, step W e = Some (W', out) -> out <> [] ->
       inflight W = [] /\ length (inflight W') = 1%nat)).
  { intros ->. simpl in Hrun.
    destruct (one_request_production _ _ _ Hrun) as (H1 & H2 & _).
    pose proof (inv_reachable _ _ _ Hrun) as HI.
    split; [exact H1|]. split.
    - intros Hl. unfold inv in HI.
      destruct (inflight W) as [|[] [|? ?]]; try reflexivity; try contradiction.
      + destruct HI as (_ & HI & _). congruence.
      + destruct HI as (_ & HI & _). congruence.
    - intros e W' out Hs Hout. apply (H2 e W' out Hs). exact Hout. }
  split; [|split; [|split; [|split]]].
  - destruct strict; [apply HL|apply Hprod; reflexivity].
  - intros Hl. destruct strict; [apply HL, Hl|].
    destruct (Hprod eq_refl) as (_ & H & _). rewrite (H Hl). simpl. lia.
  - intros e W' out Hs. split.
    + intros Hout. split; [eapply step_sends_idle; eauto|].
      intros Hst. destruct (Hprod Hst) as (_ & _ & H). eapply H; eauto.
    + apply (step_requests _ _ _ _ Hs).
  - intros mid w H. apply sendMessage_busy.
    apply orb_true_iff in H. destruct H as [H| ->].
    + apply trim_nil in H. rewrite H. reflexivity.
    + rewrite orb_true_r. reflexivity.
  - intros w d b. unfold render.
    destruct (truthy (isFinished w)); [discriminate|].
    intros [= _ <-]. f_equal.
    destruct (trim (input w)) eqn:E; simpl.
    + symmetry. apply trim_nil, E.
    + destruct (forallb is_whitespace (input w)) eqn:F; [|reflexivity].
      apply trim_nil in F. congruence.
Qed.

(** *** Failed requests *)

(** C10, as the code has it.  When the fetch of a chat request fails (the
    network call or the reading of the body rejects), the widget appends
    exactly one assistant message, the apology, to its transcript.  When
    the fetch of a start request fails, the transcript becomes that one
    apology message; this is an append whenever the mount effect has run
    once ([strict = false]), because the transcript is then empty while a
    start is pending.  In every case the session id and the finished flag
    are kept and nothing is sent. *)
Theorem failure_appends_apology (strict : bool) evs W rqs mid W' out :
  run evs (boot strict) = Some (W, rqs) ->
  (step W (StartSettled Rejected mid) = Some (W', out) ->
   messages (ui W')
     = [mkMessage mid assistant
          (JV (JStr (lit "Sorry, I couldn't connect to the server. Please try again later.")))] /\
   (strict = false ->
    messages (ui W')
      = messages (ui W)
        ++ [mkMessage mid assistant
              (JV (JStr (lit "Sorry, I couldn't connect to the server. Please try again later.")))]) /\
   sessionId (ui W') = sessionId (ui W) /\
   isFinished (ui W') = isFinished (ui W) /\ out = []) /\
  (step W (ChatSettled Rejected mid) = Some (W', out) ->
   messages (ui W')
     = messages (ui W)
       ++ [mkMessage mid assistant
             (JV (JStr (lit "Sorry, something went wrong. Please try again.")))] /\
   sessionId (ui W') = sessionId (ui W) /\
   isFinished (ui W') = isFinished (ui W) /\ out = []).
Proof.
  intros Hrun. split; intros Hs.
  - assert (Hempty : strict = false -> messages (ui W) = []).
    { intros ->. simpl in Hrun. pose proof (inv_reachable _ _ _ Hrun) as HI.
      unfold inv in HI. destruct W as [m w fl]. simpl in *.
      destruct fl as [|[] [|? ?]]; simpl in *; try discriminate; try contradiction.
      destruct HI as (_ & _ & _ & Hmsgs). exact Hmsgs. }
    destruct W as [m w fl]. simpl in *.
    destruct (take_out CStart fl); [|discriminate].
    injection Hs as <- <-. simpl.
    split; [reflexivity|]. split; [|auto].
    intros Hst. rewrite (Hempty Hst). reflexivity.
  - destruct W as [m w fl]. simpl in *.
    destruct (take_out CChat fl); [|discriminate].
    injection Hs as <- <-. simpl. auto.
Qed.

End Facts.

(** *** Examples *)

Example chat_request_shape_witness :
  run demo_api demo_typing unmounted
    = Some (world_after demo_typing, requests_of demo_typing) /\
  step demo_api (world_after demo_typing) (Submit (lit "m2"))
    = Some (world_after demo_waiting,
            [chat_request demo_api (lit "a latte") (JV (JStr (lit "s-1")))]) /\
  ([chat_request demo_api (lit "a latte") (JV (JStr (lit "s-1")))] = [] \/
   exists rq,
     [chat_request demo_api (lit "a latte") (JV (JStr (lit "s-1")))] = [rq] /\
     url rq = "http://localhost:8000/chat"%string /\
     method rq = "POST"%string /\
     headers rq = [("Content-Type", "application/json")]%string /\
     body rq = Some (JObj [("message"%string, JStr (lit "a latte"));
                           ("session_id"%string, JStr (lit "s-1"))])).
Proof.
  refine (let H1 := eq_refl in let H2 := eq_refl in
          conj H1 (conj H2
            (proj1 (chat_request_shape demo_api demo_typing _ _ (lit "m2") _ _
                      H1 H2)))).
Defined.

(** After a failed start the widget still sends what is typed, with
    [session_id: null]. *)
Example chat_after_failed_start :
  step demo_api (world_after demo_offline) (Submit (lit "m2"))
  = Some (world_after (demo_offline ++ [Submit (lit "m2")]),
          [chat_request demo_api (lit "hi") (JV JNull)]).
Proof. reflexivity. Qed.

(** C7, as stated, fails: the chat request of [chat_after_failed_start]
    carries no id that a start response returned, since no start response
    was ever received. *)
Lemma chat_without_started_id : ~ chat_carries_started_id demo_api.
Proof.
  intros H.
  destruct (H demo_offline _ _ (lit "m2") _ _ eq_refl chat_after_failed_start)
    as (data & m & sid & Hin & _).
  simpl in Hin. intuition discriminate.
Qed.


Example one_request_no_blank_message_witness :
  run demo_api demo_waiting (boot demo_api false)
    = Some (world_after demo_waiting, requests_of demo_waiting) /\
  (length (inflight (world_after demo_waiting)) <= 1)%nat /\
  (isLoading (ui (world_after demo_waiting)) = false ->
   (length (inflight (world_after demo_waiting)) <= 0)%nat).
Proof.
  assert (H1 : run demo_api demo_waiting (boot demo_api false)
               = Some (world_after demo_waiting, requests_of demo_waiting))
    by reflexivity.
  pose proof (one_request_no_blank_message demo_api false demo_waiting _ _ H1)
    as T.
  exact (conj H1 (conj (proj1 T) (proj1 (proj2 T)))).
Defined.

(** Under the development server the page starts with two start requests
    pending. *)
Example strict_mount_sends_twice :
  strict_mount demo_api
  = ({| mounted := true;
        ui := {| messages := []; input := []; isLoading := true;
                 sessionId := JV JNull; isFinished := JV (JBool false) |};
        inflight := [CStart; CStart] |},
     [start_request demo_api; start_request demo_api]).
Proof. reflexivity. Qed.

(** C9, as stated, fails: after the doubled mount effect two start requests
    are pending together. *)
Lemma two_starts_in_flight : ~ never_two_in_flight demo_api.
Proof.
  intros H.
  assert (Hr : page_reachable demo_api (boot demo_api true)).
  { exists true, [], []. reflexivity. }
  specialize (H _ Hr). simpl in H. lia.
Qed.

Example failure_appends_apology_witness :
  run demo_api demo_waiting (boot demo_api false)
    = Some (world_after demo_waiting, requests_of demo_waiting) /\
  step demo_api (world_after demo_waiting) (ChatSettled Rejected (lit "m3"))
    = Some (world_after (demo_waiting ++ [ChatSettled Rejected (lit "m3")]), []) /\
  messages (ui (world_after (demo_waiting ++ [ChatSettled Rejected (lit "m3")])))
    = messages (ui (world_after demo_waiting))
      ++ [mkMessage (lit "m3") assistant
            (JV (JStr (lit "Sorry, something went wrong. Please try again.")))] /\
  sessionId (ui (world_after (demo_waiting ++ [ChatSettled Rejected (lit "m3")])))
    = JV (JStr (lit "s-1")).
Proof.
  assert (H1 : run demo_api demo_waiting (boot demo_api false)
               = Some (world_after demo_waiting, requests_of demo_waiting))
    by reflexivity.
  assert (H2 : step demo_api (world_after demo_waiting)
                 (ChatSettled Rejected (lit "m3"))
               = Some (world_after
                         (demo_waiting ++ [ChatSettled Rejected (lit "m3")]), []))
    by reflexivity.
  pose proof (proj2 (failure_appends_apology demo_api false demo_waiting _ _
                       (lit "m3") _ _ H1) H2) as T.
  exact (conj H1 (conj H2 (conj (proj1 T) (proj1 (proj2 T))))).
Defined.

(** After the doubled mount effect: the first start request succeeds, the
    second fails, and the greeting is replaced by the apology. *)
Example second_start_fails :
  run demo_api [StartSettled (Resolved demo_start_body) (lit "m1")]
      (boot demo_api true)
    = Some ({| mounted := true;
               ui := {| messages :=
                          [mkMessage (lit "m1") assistant
                             (JV (JStr (lit "Welcome!")))];
                        input := []; isLoading := false;
                        sessionId := JV (JStr (lit "s-1"));
                        isFinished := JV (JBool false) |};
               inflight := [CStart] |}, []) /\
  step demo_api
       {| mounted := true;
          ui := {| messages :=
                     [mkMessage (lit "m1") assistant (JV (JStr (lit "Welcome!")))];
                   input := []; isLoading := false;
                   sessionId := JV (JStr (lit "s-1"));
                   isFinished := JV (JBool false) |};
          inflight := [CStart] |}
       (StartSettled Rejected (lit "m2"))
    = Some ({| mounted := true;
               ui := {| messages :=
                          [mkMessage (lit "m2") assistant
                             (JV (JStr (start_apology)))];
                        input := []; isLoading := false;
                        sessionId := JV (JStr (lit "s-1"));
                        isFinished := JV (JBool false) |};
               inflight := [] |}, []).
Proof. split; reflexivity. Qed.

(** C10, as stated, fails: in [second_start_fails] the failed start request
    leaves a transcript of one message where there was one before, so no
    message was appended. *)
Lemma failed_start_overwrites : ~ failure_always_appends demo_api.
Proof.
  intros H. destruct second_start_fails as (Hrun & Hstep).
  assert (Hr : page_reachable demo_api
                 {| mounted := true;
                    ui := {| messages :=
                               [mkMessage (lit "m1") assistant
                                  (JV (JStr (lit "Welcome!")))];
                             input := []; isLoading := false;
                             sessionId := JV (JStr (lit "s-1"));
                             isFinished := JV (JBool false) |};
                    inflight := [CStart] |}).
  { exists true, [StartSettled (Resolved demo_start_body) (lit "m1")], [].
    exact Hrun. }
  destruct (H _ _ _ _ Hr Hstep) as (m & Hm).
  apply (f_equal (@length Message)) in Hm. simpl in Hm. discriminate Hm.
Qed.

End WidgetFacts.

(** ** The chat widget: further properties *)

Module WidgetMore.
Import Widget WidgetFacts.

Local Open Scope list_scope.

(** *** Alternation *)

Lemma other_role_involutive r : other_role (other_role r) = r.
Proof. destruct r; reflexivity. Qed.

Lemma alternates_snoc (first : Role) (ms : list Message) (m : Message) :
  alternates first (ms ++ [m])
  = alternates first ms
    && role_eqb (role m)
         (if Nat.even (length ms) then first else other_role first).
Proof.
  revert first. induction ms as [|a ms IH]; intros first.
  - simpl. rewrite andb_true_r. reflexivity.
  - cbn [app alternates length].
    rewrite IH, other_role_involutive, <- andb_assoc, Nat.even_succ,
      <- Nat.negb_even.
    destruct (Nat.even (length ms)); reflexivity.
Qed.

Lemma alternates_last (ms : list Message) (m : Message) :
  alternates assistant ms = true -> last ms = Some m ->
  role m = if Nat.odd (length ms) then assistant else user.
Proof.
  intros Halt Hlast. apply last_Some in Hlast. destruct Hlast as (ms' & ->).
  rewrite alternates_snoc in Halt. apply andb_true_iff in Halt.
  destruct Halt as (_ & Hr).
  rewrite length_app, Nat.add_1_r, Nat.odd_succ.
  destruct (Nat.even (length ms')), (role m); simpl in *; congruence.
Qed.

(** [trim] removes white space at both ends and nothing else. *)
Lemma trim_split (s : jstring) :
  exists pre post,
    s = pre ++ trim s ++ post /\
    forallb is_whitespace pre = true /\ forallb is_whitespace post = true.
Proof.
  unfold trim.
  destruct (trim_start_split s) as (pre & Hs & Hpre).
  destruct (trim_start_split (rev (trim_start s))) as (post & Ht & Hpost).
  exists pre, (rev post). split; [|split; [exact Hpre|]].
  - rewrite <- rev_app_distr, <- Ht, rev_involutive. exact Hs.
  - rewrite forallb_rev. exact Hpost.
Qed.

Section More.

Variable API_URL : string.

Local Abbreviation step := (step API_URL).
Local Abbreviation run := (run API_URL).
Local Abbreviation sendMessage := (sendMessage API_URL).
Local Abbreviation chat_request := (chat_request API_URL).
Local Abbreviation start_request := (start_request API_URL).
Local Abbreviation boot := (boot API_URL).

Lemma tidy_unmounted : tidy unmounted.
Proof. repeat split; reflexivity. Qed.

Ltac tidy_cases fl :=
  destruct fl as [|[] [|? ?]]; simpl in *;
  intuition (subst; simpl in *; try discriminate; try congruence; auto).

Lemma tidy_step W e W' rqs : tidy W -> step W e = Some (W', rqs) -> tidy W'.
Proof.
  unfold tidy. intros (Halt & HI) Hs.
  destruct W as [m w fl]. simpl in *.
  destruct e as [|v|mid| |r mid|r mid]; simpl in Hs.
  - (* Mount *)
    destruct m; [discriminate|]. injection Hs as <- _. simpl.
    split; [exact Halt|]. tidy_cases fl.
  - (* Change *)
    destruct m; [|discriminate].
    unfold render in Hs.
    destruct (truthy (isFinished w)) eqn:Hf; [discriminate|].
    destruct (isLoading w) eqn:Hl; [discriminate|].
    injection Hs as <- _. simpl.
    split; [exact Halt|]. tidy_cases fl.
  - (* Submit *)
    destruct m; [|discriminate].
    destruct (sendMessage_cases API_URL mid w)
      as [(_ & Hsm)|(Hne & Hl & Hf & Hsm)];
      rewrite Hsm in Hs; injection Hs as <- _; simpl.
    + split; [exact Halt|exact HI].
    + destruct fl as [|[] [|? ?]]; simpl in *;
        try (destruct HI as (_ & HI & _); congruence); try contradiction.
      destruct HI as (_ & _ & Hodd).
      rewrite alternates_snoc, Halt, <- Nat.negb_odd, Hodd. simpl.
      split; [reflexivity|]. repeat split; try reflexivity; try assumption.
      * rewrite length_app, Nat.add_1_r, Nat.even_succ. exact Hodd.
      * destruct (messages w); discriminate.
  - (* ClickReset *)
    destruct m; [|discriminate].
    unfold render in Hs.
    destruct (truthy (isFinished w)) eqn:Hf; [|discriminate].
    injection Hs as <- _. simpl.
    split; [reflexivity|]. tidy_cases fl.
  - (* StartSettled *)
    destruct fl as [|[] [|? ?]]; simpl in *; try contradiction; try discriminate.
    injection Hs as <- _. simpl.
    destruct HI as (-> & _ & _ & _ & Hin).
    destruct r as [|data]; simpl.
    + repeat split; auto.
    + destruct (get_prop data "session_id"), (get_prop data "response"),
        (get_prop data "finished"); simpl; repeat split; auto.
  - (* ChatSettled *)
    destruct fl as [|[] [|? ?]]; simpl in *; try contradiction; try discriminate.
    destruct HI as (-> & _ & _ & Hev & Hne & Hin).
    assert (Hodd : Nat.odd (length (messages w ++ [mkMessage mid assistant JUndefined])) = true).
    { rewrite length_app, Nat.add_1_r, Nat.odd_succ. exact Hev. }
    rewrite length_app in Hodd. simpl in Hodd.
    destruct r as [|data]; simpl in Hs.
    + injection Hs as <- _. simpl.
      rewrite alternates_snoc, Halt, Hev, length_app. simpl. repeat split; auto.
    + destruct (get_prop data "response"); [|discriminate].
      destruct (get_prop data "finished"); [|discriminate].
      injection Hs as <- _. simpl.
      rewrite alternates_snoc, Halt, Hev, length_app. simpl. repeat split; auto.
Qed.

Lemma tidy_run evs W W' rqs : tidy W -> run evs W = Some (W', rqs) -> tidy W'.
Proof.
  revert W rqs. induction evs as [|e evs IH]; intros W rqs HI; simpl.
  - intros [= <- _]. exact HI.
  - destruct (Widget.step API_URL W e) as [[W1 r1]|] eqn:Hs; [|discriminate].
    destruct (Widget.run API_URL evs W1) as [[W2 r2]|] eqn:Hr; [|discriminate].
    intros [= <- _]. eapply IH; [|exact Hr]. eapply tidy_step; eauto.
Qed.

Lemma tidy_reachable evs W rqs : run evs unmounted = Some (W, rqs) -> tidy W.
Proof. apply tidy_run, tidy_unmounted. Qed.

(** *** What is shown while a request is pending *)

(** X1.  When the mount effect has run once ([boot false], a production
    build), in every world the widget can reach the transcript alternates
    between assistant and user messages, starting with an assistant
    message; its last message is a user message exactly while a chat
    request is pending, and it is empty exactly before the page has mounted
    and while a start request is pending. *)
Theorem transcript_alternates evs W rqs :
  run evs (boot false) = Some (W, rqs) ->
  alternates assistant (messages (ui W)) = true /\
  ((exists m, last (messages (ui W)) = Some m /\ role m = user)
   <-> inflight W = [CChat]) /\
  (messages (ui W) = [] <-> mounted W = false \/ inflight W = [CStart]).
Proof.
  intros Hrun. destruct (tidy_reachable _ _ _ Hrun) as (Halt & HI).
  split; [exact Halt|].
  destruct W as [m w fl]. simpl in *. split.
  - split.
    + intros (x & Hlast & Hrole).
      pose proof (alternates_last _ _ Halt Hlast) as Hr. rewrite Hrole in Hr.
      destruct fl as [|[] [|? ?]]; simpl in *; try contradiction.
      * destruct HI as (_ & _ & HI). destruct m.
        -- rewrite HI in Hr. discriminate.
        -- subst w. discriminate.
      * destruct HI as (_ & _ & _ & HI & _). rewrite HI in Hlast. discriminate.
      * reflexivity.
    + intros ->. destruct HI as (_ & _ & _ & Hev & Hne & _).
      destruct (last (messages w)) as [x|] eqn:Hlast.
      * exists x. split; [reflexivity|].
        rewrite (alternates_last _ _ Halt Hlast), <- Nat.negb_even, Hev.
        reflexivity.
      * apply last_None in Hlast. contradiction.
  - split.
    + intros Hnil. destruct fl as [|[] [|? ?]]; simpl in *; try contradiction.
      * destruct HI as (_ & _ & HI). destruct m; [|auto].
        rewrite Hnil in HI. discriminate.
      * auto.
      * destruct HI as (_ & _ & _ & _ & HI & _). contradiction.
    + intros [->| ->].
      * destruct fl as [|[] [|? ?]]; simpl in *; try contradiction.
        -- destruct HI as (_ & _ & ->). reflexivity.
        -- destruct HI as (HI & _). discriminate.
        -- destruct HI as (HI & _). discriminate.
      * destruct HI as (_ & _ & _ & HI & _). exact HI.
Qed.

(** X2.  In every world the widget can reach, however the page was
    mounted, the loading flag (which shows the typing indicator and
    disables the input) is set only while a request is pending and never
    together with the finished flag.  When the mount effect has run once
    ([strict = false], a production build) the flag is set exactly while a
    request is pending, and the input box is empty whenever the widget is
    loading or finished. *)
Theorem loading_iff_pending (strict : bool) evs W rqs :
  run evs (boot strict) = Some (W, rqs) ->
  (isLoading (ui W) = true ->
   inflight W <> [] /\ truthy (isFinished (ui W)) = false) /\
  (strict = false ->
   (isLoading (ui W) = true <-> inflight W <> []) /\
   (isLoading (ui W) = true \/ truthy (isFinished (ui W)) = true ->
    input (ui W) = [])).
Proof.
  intros Hrun. split.
  - pose proof (loose_run _ _ _ _ _ (loose_boot API_URL strict) Hrun)
      as (_ & _ & Hbusy & _). exact Hbusy.
  - intros ->. destruct (tidy_reachable _ _ _ Hrun) as (_ & HI).
    destruct W as [m w fl]. simpl in *.
    destruct fl as [|[] [|? ?]]; simpl in *; try contradiction.
    + destruct HI as (Hl & Hin & _). rewrite Hl.
      repeat split; try discriminate; try congruence.
      intros [H|H]; [discriminate|auto].
    + destruct HI as (_ & Hl & Hf & _ & Hin).
      repeat split; auto; discriminate.
    + destruct HI as (_ & Hl & Hf & _ & _ & Hin).
      repeat split; auto; discriminate.
Qed.


(** X4.  The widget never marks an order finished on its own: the
    finished flag turns truthy only when a start or chat response arrives
    whose body has a truthy [finished] field. *)
Theorem finished_only_from_response W e W' rqs :
  step W e = Some (W', rqs) ->
  truthy (isFinished (ui W)) = false ->
  truthy (isFinished (ui W')) = true ->
  exists data mid v,
    (e = StartSettled (Resolved data) mid \/
     e = ChatSettled (Resolved data) mid) /\
    get_prop data "finished" = Some v /\ truthy v = true.
Proof.
  intros Hs Hf Hf'. destruct W as [m w fl]. simpl in *.
  destruct e as [|v|mid| |r mid|r mid]; simpl in Hs.
  - destruct m; [discriminate|]. injection Hs as <- _. simpl in Hf'. congruence.
  - destruct m; [|discriminate]. destruct (render w) as [|[] ?]; try discriminate.
    injection Hs as <- _. simpl in Hf'. congruence.
  - destruct m; [|discriminate].
    destruct (sendMessage_cases API_URL mid w) as [(_ & Hsm)|(_ & _ & _ & Hsm)];
      rewrite Hsm in Hs; injection Hs as <- _; simpl in Hf'; congruence.
  - destruct m; [|discriminate]. destruct (render w); try discriminate.
    injection Hs as <- _. simpl in Hf'. discriminate.
  - destruct (take_out CStart fl); [|discriminate].
    injection Hs as <- _. simpl in Hf'.
    destruct r as [|data]; simpl in Hf'; [congruence|].
    destruct (get_prop data "session_id") as [sid|]; [|simpl in Hf'; congruence].
    destruct (get_prop data "response") as [resp|]; [|simpl in Hf'; congruence].
    destruct (get_prop data "finished") as [fin|] eqn:E; [|simpl in Hf'; congruence].
    simpl in Hf'. exists data, mid, fin. auto.
  - destruct (take_out CChat fl); [|discriminate].
    destruct r as [|data]; simpl in Hs.
    + injection Hs as <- _. simpl in Hf'. congruence.
    + destruct (get_prop data "response") as [resp|]; [|discriminate].
      destruct (get_prop data "finished") as [fin|] eqn:E; [|discriminate].
      injection Hs as <- _. simpl in Hf'. exists data, mid, fin. auto.
Qed.

(** *** What is sent *)

(** X5.  When [sendMessage] sends, the text it sends is the input with
    white space removed at both ends and nowhere else: the input is that
    text between two runs of white space, and the text itself starts and
    ends with a character that is not white space.  The user message added
    to the transcript holds exactly that text, and the input box is
    cleared. *)
Theorem sent_text_is_input_core mid w w' rq :
  sendMessage mid w = (w', Some rq) ->
  exists pre m post,
    input w = pre ++ m ++ post /\
    forallb is_whitespace pre = true /\ forallb is_whitespace post = true /\
    (exists c r, m = c :: r /\ is_whitespace c = false) /\
    (exists r c, m = r ++ [c] /\ is_whitespace c = false) /\
    body rq = Some (chat_body m (sessionId w)) /\
    messages w' = messages w ++ [mkMessage mid user (JV (JStr m))] /\
    input w' = [].
Proof.
  intros Hs.
  destruct (sendMessage_cases API_URL mid w) as [(_ & Hsm)|(Hne & _ & _ & Hsm)];
    rewrite Hsm in Hs; [discriminate|]. injection Hs as <- <-.
  destruct (trim_split (input w)) as (pre & post & Hin & Hpre & Hpost).
  destruct (trim_ends (input w) Hne) as (Hhead & Hlast).
  exists pre, (trim (input w)), post. simpl.
  split; [exact Hin|]. split; [exact Hpre|]. split; [exact Hpost|].
  split; [exact Hhead|]. split; [exact Hlast|].
  split; [reflexivity|]. split; reflexivity.
Qed.


(** *** The order of requests *)

Lemma silent_before_start W e W' rqs :
  tidy W -> messages (ui W) = [] -> step W e = Some (W', rqs) ->
  is_start_settled e = false -> messages (ui W') = [].
Proof.
  intros (_ & HI) Hnil Hs He. destruct W as [m w fl]. simpl in *.
  destruct e as [|v|mid| |r mid|r mid]; simpl in Hs; try discriminate.
  - destruct m; [discriminate|]. injection Hs as <- _. exact Hnil.
  - destruct m; [|discriminate]. destruct (render w) as [|[] ?]; try discriminate.
    injection Hs as <- _. exact Hnil.
  - destruct m; [|discriminate].
    destruct (sendMessage_cases API_URL mid w) as [(_ & Hsm)|(_ & Hl & _ & Hsm)];
      rewrite Hsm in Hs; injection Hs as <- _; [exact Hnil|].
    exfalso. destruct fl as [|[] [|? ?]]; simpl in *; try contradiction.
    + destruct HI as (_ & _ & HI). rewrite Hnil in HI. discriminate.
    + destruct HI as (_ & HI & _). congruence.
    + destruct HI as (_ & HI & _). congruence.
  - destruct m; [|discriminate]. destruct (render w); try discriminate.
    injection Hs as <- _. reflexivity.
  - destruct fl as [|[] [|? ?]]; simpl in *; try contradiction; try discriminate.
    destruct HI as (_ & _ & _ & _ & HI & _). contradiction.
Qed.

Lemma transcript_needs_start evs W W' rqs :
  tidy W -> messages (ui W) = [] -> run evs W = Some (W', rqs) ->
  messages (ui W') <> [] -> existsb is_start_settled evs = true.
Proof.
  revert W rqs. induction evs as [|e evs IH]; intros W rqs HI Hnil; simpl.
  - intros [= <- _] Hne. contradiction.
  - destruct (Widget.step API_URL W e) as [[W1 r1]|] eqn:Hs; [|discriminate].
    destruct (Widget.run API_URL evs W1) as [[W2 r2]|] eqn:Hr; [|discriminate].
    intros [= <- _] Hne.
    destruct (is_start_settled e) eqn:He; [reflexivity|]. simpl.
    eapply IH; [| |exact Hr|exact Hne].
    + eapply tidy_step; eauto.
    + eapply silent_before_start; eauto.
Qed.

(** X7.  The first request the page ever issues is the start request, and
    a chat request is only sent after some start request has settled. *)
Theorem start_comes_first evs W rqs :
  run evs unmounted = Some (W, rqs) ->
  (rqs = [] \/ exists rest, rqs = start_request :: rest) /\
  (forall mid W' rq,
     step W (Submit mid) = Some (W', [rq]) ->
     existsb is_start_settled evs = true).
Proof.
  intros Hrun. split.
  - destruct evs as [|e evs]; simpl in Hrun.
    + injection Hrun as _ <-. left. reflexivity.
    + destruct e; simpl in Hrun; try discriminate.
      match type of Hrun with
      | match Widget.run API_URL evs ?W1 with _ => _ end = _ =>
          destruct (Widget.run API_URL evs W1) as [[W2 r2]|]; [|discriminate]
      end.
      injection Hrun as _ <-. right. eexists. reflexivity.
  - intros mid W' rq Hs.
    eapply transcript_needs_start; [apply tidy_unmounted|reflexivity|exact Hrun|].
    destruct (tidy_reachable _ _ _ Hrun) as (_ & HI).
    destruct W as [m w fl]. simpl in *.
    destruct m; [|discriminate].
    destruct (sendMessage_cases API_URL mid w) as [(_ & Hsm)|(_ & Hl & _ & Hsm)];
      rewrite Hsm in Hs; [discriminate|].
    intros Hnil.
    destruct fl as [|[] [|? ?]]; simpl in *; try contradiction.
    + destruct HI as (_ & _ & HI). rewrite Hnil in HI. discriminate.
    + destruct HI as (_ & HI & _). congruence.
    + destruct HI as (_ & HI & _). congruence.
Qed.

(** *** Within one conversation *)

Lemma step_within W e W' rqs :
  mounted W = true -> restarts e = false -> step W e = Some (W', rqs) ->
  mounted W' = true /\
  sessionId (ui W') = sessionId (ui W) /\
  (exists added, messages (ui W') = messages (ui W) ++ added /\
                 (length added <= 1)%nat) /\
  (forall rq, In rq rqs -> exists m, rq = chat_request m (sessionId (ui W))).
Proof.
  intros Hm He Hs. destruct W as [m w fl]. simpl in *. subst m.
  destruct e as [|v|mid| |r mid|r mid]; simpl in Hs; try discriminate.
  - destruct (render w) as [|[] ?]; try discriminate.
    injection Hs as <- <-. simpl. repeat split; try tauto.
    exists []. rewrite app_nil_r. auto.
  - destruct (sendMessage_cases API_URL mid w) as [(_ & Hsm)|(_ & _ & _ & Hsm)];
      rewrite Hsm in Hs; injection Hs as <- <-; simpl.
    + repeat split; try tauto. exists []. rewrite app_nil_r. auto.
    + repeat split.
      * eexists. split; [reflexivity|]. simpl. lia.
      * intros rq [<-|[]]. eexists. reflexivity.
  - destruct (take_out CChat fl); [|discriminate].
    destruct (sendMessage_settle r mid w) as [w1|] eqn:E; [|discriminate].
    injection Hs as <- <-. simpl.
    destruct r as [|data]; simpl in E.
    + injection E as <-. simpl. repeat split; try tauto.
      eexists. split; [reflexivity|]. simpl. lia.
    + destruct (get_prop data "response"); [|discriminate].
      destruct (get_prop data "finished"); [|discriminate].
      injection E as <-. simpl. repeat split; try tauto.
      eexists. split; [reflexivity|]. simpl. lia.
Qed.

Lemma run_within evs W W' rqs :
  mounted W = true ->
  existsb restarts evs = false ->
  run evs W = Some (W', rqs) ->
  sessionId (ui W') = sessionId (ui W) /\
  forall rq, In rq rqs -> exists m, rq = chat_request m (sessionId (ui W)).
Proof.
  revert W rqs. induction evs as [|e evs IH]; intros W rqs Hm Hno; simpl.
  - intros [= <- <-]. split; [reflexivity|]. intros rq [].
  - simpl in Hno. apply orb_false_iff in Hno. destruct Hno as (He & Hno).
    destruct (Widget.step API_URL W e) as [[W1 r1]|] eqn:Hs; [|discriminate].
    destruct (Widget.run API_URL evs W1) as [[W2 r2]|] eqn:Hr; [|discriminate].
    intros [= <- <-].
    destruct (step_within _ _ _ _ Hm He Hs) as (Hm1 & Hsid & _ & Hrq).
    destruct (IH _ _ Hm1 Hno Hr) as (Hsid' & Hrq').
    split; [congruence|].
    intros rq Hin. apply in_app_or in Hin. destruct Hin as [Hin|Hin].
    + apply Hrq, Hin.
    + rewrite <- Hsid. apply Hrq', Hin.
Qed.

(** X8.  As long as no start response arrives and the order is not reset,
    the conversation stays with one session: the session id does not
    change and every request issued is a chat request carrying it. *)
Theorem one_session_per_conversation evs W W' rqs :
  mounted W = true ->
  existsb restarts evs = false ->
  run evs W = Some (W', rqs) ->
  sessionId (ui W') = sessionId (ui W) /\
  forall rq, In rq rqs -> exists m, rq = chat_request m (sessionId (ui W)).
Proof. apply run_within. Qed.

(** X13.  When the body of a start response is an object without a
    [session_id] field (an error body, for instance), the widget still
    opens the conversation, and every chat request it sends until the next
    start response or reset has a body made of the [message] field alone. *)
Theorem missing_session_id_is_omitted evs0 W rqs0 fields mid W1 evs W' rqs :
  run evs0 unmounted = Some (W, rqs0) ->
  assoc "session_id" fields = None ->
  step W (StartSettled (Resolved (JObj fields)) mid) = Some (W1, []) ->
  existsb restarts evs = false ->
  run evs W1 = Some (W', rqs) ->
  isLoading (ui W1) = false /\
  forall rq, In rq rqs ->
    exists m, body rq = Some (JObj [("message"%string, JStr m)]).
Proof.
  intros Hrun Hsid Hs Hno Hr.
  destruct (tidy_reachable _ _ _ Hrun) as (_ & HI).
  destruct W as [m w fl]. simpl in *.
  destruct fl as [|[] [|? ?]]; simpl in *; try contradiction; try discriminate.
  destruct HI as (-> & _). injection Hs as <-.
  rewrite Hsid in Hr.
  split; [reflexivity|].
  pose proof (fun Hm => run_within _ _ _ _ Hm Hno Hr) as Hw.
  destruct (Hw eq_refl) as (_ & Hrq).
  intros rq Hin. destruct (Hrq rq Hin) as (msg & ->).
  exists msg. reflexivity.
Qed.

(** X9.  As long as no start response arrives and the order is not reset,
    the widget never removes or rewrites a message: the transcript only
    grows at its end, by at most one message per event. *)
Theorem transcript_only_grows evs W W' rqs :
  mounted W = true ->
  existsb restarts evs = false ->
  run evs W = Some (W', rqs) ->
  exists added,
    messages (ui W') = messages (ui W) ++ added /\
    (length added <= length evs)%nat.
Proof.
  revert W rqs. induction evs as [|e evs IH]; intros W rqs Hm Hno; simpl.
  - intros [= <- <-]. exists []. rewrite app_nil_r. auto.
  - simpl in Hno. apply orb_false_iff in Hno. destruct Hno as (He & Hno).
    destruct (Widget.step API_URL W e) as [[W1 r1]|] eqn:Hs; [|discriminate].
    destruct (Widget.run API_URL evs W1) as [[W2 r2]|] eqn:Hr; [|discriminate].
    intros [= <- <-].
    destruct (step_within _ _ _ _ Hm He Hs) as (Hm1 & _ & (a1 & Ha1 & Hl1) & _).
    destruct (IH _ _ Hm1 Hno Hr) as (a2 & Ha2 & Hl2).
    exists (a1 ++ a2). rewrite Ha2, Ha1, app_assoc, length_app.
    split; [reflexivity|lia].
Qed.

(** *** Message ids *)

Lemma step_ids W e W' rqs :
  step W e = Some (W', rqs) ->
  (id <$> messages (ui W')) `sublist_of` (id <$> messages (ui W)) ++ event_ids e.
Proof.
  intros Hs. destruct W as [m w fl]. simpl in *.
  destruct e as [|v|mid| |r mid|r mid]; simpl in Hs.
  - destruct m; [discriminate|]. injection Hs as <- _. simpl.
    rewrite app_nil_r. reflexivity.
  - destruct m; [|discriminate]. destruct (render w) as [|[] ?]; try discriminate.
    injection Hs as <- _. simpl. rewrite app_nil_r. reflexivity.
  - destruct m; [|discriminate].
    destruct (sendMessage_cases API_URL mid w) as [(_ & Hsm)|(_ & _ & _ & Hsm)];
      rewrite Hsm in Hs; injection Hs as <- _; simpl.
    + apply sublist_inserts_r. reflexivity.
    + rewrite fmap_app. reflexivity.
  - destruct m; [|discriminate]. destruct (render w); try discriminate.
    injection Hs as <- _. simpl. apply sublist_nil_l.
  - destruct (take_out CStart fl); [|discriminate]. injection Hs as <- _. simpl.
    apply sublist_inserts_l.
    destruct r as [|data]; simpl; [reflexivity|].
    destruct (get_prop data "session_id"), (get_prop data "response"),
      (get_prop data "finished"); reflexivity.
  - destruct (take_out CChat fl); [|discriminate].
    destruct r as [|data]; simpl in Hs.
    + injection Hs as <- _. simpl. rewrite fmap_app. reflexivity.
    + destruct (get_prop data "response"); [|discriminate].
      destruct (get_prop data "finished"); [|discriminate].
      injection Hs as <- _. simpl. rewrite fmap_app. reflexivity.
Qed.

Lemma run_ids evs W W' rqs :
  run evs W = Some (W', rqs) ->
  (id <$> messages (ui W'))
    `sublist_of` (id <$> messages (ui W)) ++ concat (event_ids <$> evs).
Proof.
  revert W rqs. induction evs as [|e evs IH]; intros W rqs; simpl.
  - intros [= <- _]. rewrite app_nil_r. reflexivity.
  - destruct (Widget.step API_URL W e) as [[W1 r1]|] eqn:Hs; [|discriminate].
    destruct (Widget.run API_URL evs W1) as [[W2 r2]|] eqn:Hr; [|discriminate].
    intros [= <- _]. etransitivity; [apply (IH _ _ Hr)|].
    rewrite app_assoc. apply sublist_app; [|reflexivity].
    apply (step_ids _ _ _ _ Hs).
Qed.

(** X10.  If the ids that [generateId] hands out during a run are pairwise
    distinct, then the messages of the transcript have pairwise distinct
    ids, so the keys of the rendered list are unique. *)
Theorem message_ids_unique evs W rqs :
  run evs unmounted = Some (W, rqs) ->
  NoDup (concat (event_ids <$> evs)) ->
  NoDup (id <$> messages (ui W)).
Proof.
  intros Hrun Hnd. eapply sublist_NoDup; [exact Hnd|].
  apply (run_ids _ _ _ _ Hrun).
Qed.

End More.

(** *** [generateId] *)

Lemma lit_inj (s1 s2 : string) : lit s1 = lit s2 -> s1 = s2.
Proof.
  unfold lit. revert s2. induction s1 as [|a s1 IH]; intros [|b s2]; simpl;
    try discriminate; [reflexivity|].
  intros [= Hab Hs]. f_equal; [|apply IH, Hs].
  rewrite <- (ascii_N_embedding a), <- (ascii_N_embedding b), Hab. reflexivity.
Qed.

Lemma digits_no_dash (d : Decimal.uint) :
  Forall (fun c => c <> 45%N) (lit (NilEmpty.string_of_uint d)).
Proof.
  induction d; simpl; constructor; try exact IHd; discriminate.
Qed.

Lemma split_at_first (c : N) (a b x y : list N) :
  Forall (fun k => k <> c) a -> Forall (fun k => k <> c) b ->
  a ++ c :: x = b ++ c :: y -> a = b /\ x = y.
Proof.
  revert b. induction a as [|h a IH]; intros [|k b] Ha Hb; simpl.
  - intros [= <-]. auto.
  - intros [= <- _]. inversion Hb; subst. contradiction.
  - intros [= -> _]. inversion Ha; subst. contradiction.
  - intros [= <- Heq]. inversion Ha; inversion Hb; subst.
    destruct (IH b) as (-> & ->); auto.
Qed.

(** X11.  Two ids made by [generateId] are equal exactly when they were
    made in the same millisecond with random strings that agree on the
    characters at positions 2 to 8: ids made at different times always
    differ. *)
Theorem generateId_equal_iff (now1 now2 : N) (r1 r2 : jstring) :
  generateId now1 r1 = generateId now2 r2
  <-> now1 = now2 /\ slice 2 9 r1 = slice 2 9 r2.
Proof.
  split.
  - unfold generateId, decimal. intros H.
    apply split_at_first in H; try apply digits_no_dash.
    destruct H as (Hd & Hr). split; [|exact Hr].
    apply lit_inj in Hd.
    apply Unsigned.to_uint_inj.
    pose proof (NilEmpty.usu (N.to_uint now1)) as H1.
    rewrite Hd, NilEmpty.usu in H1. congruence.
  - intros (-> & Hr). unfold generateId. rewrite Hr. reflexivity.
Qed.


(** *** Examples *)

Example transcript_alternates_witness :
  run demo_api demo_waiting (boot demo_api false)
    = Some (world_after demo_waiting, requests_of demo_waiting) /\
  alternates assistant (messages (ui (world_after demo_waiting))) = true.
Proof.
  assert (H1 : run demo_api demo_waiting (boot demo_api false)
               = Some (world_after demo_waiting, requests_of demo_waiting))
    by reflexivity.
  exact (conj H1 (proj1 (transcript_alternates demo_api demo_waiting _ _ H1))).
Defined.

Example loading_iff_pending_witness :
  run demo_api demo_waiting (boot demo_api false)
    = Some (world_after demo_waiting, requests_of demo_waiting) /\
  (isLoading (ui (world_after demo_waiting)) = true ->
   inflight (world_after demo_waiting) <> [] /\
   truthy (isFinished (ui (world_after demo_waiting))) = false).
Proof.
  assert (H1 : run demo_api demo_waiting (boot demo_api false)
               = Some (world_after demo_waiting, requests_of demo_waiting))
    by reflexivity.
  exact (conj H1
           (proj1 (loading_iff_pending demo_api false demo_waiting _ _ H1))).
Defined.


Example finished_only_from_response_witness :
  step demo_api (world_after demo_waiting)
       (ChatSettled (Resolved demo_final_body) (lit "m3"))
    = Some (world_after demo_done, []) /\
  truthy (isFinished (ui (world_after demo_waiting))) = false /\
  truthy (isFinished (ui (world_after demo_done))) = true /\
  exists data mid v,
    (ChatSettled (Resolved demo_final_body) (lit "m3")
       = StartSettled (Resolved data) mid \/
     ChatSettled (Resolved demo_final_body) (lit "m3")
       = ChatSettled (Resolved data) mid) /\
    get_prop data "finished" = Some v /\ truthy v = true.
Proof.
  assert (H1 : step demo_api (world_after demo_waiting)
                    (ChatSettled (Resolved demo_final_body) (lit "m3"))
               = Some (world_after demo_done, [])) by reflexivity.
  assert (H2 : truthy (isFinished (ui (world_after demo_waiting))) = false)
    by reflexivity.
  assert (H3 : truthy (isFinished (ui (world_after demo_done))) = true)
    by reflexivity.
  exact (conj H1 (conj H2 (conj H3
           (finished_only_from_response demo_api _ _ _ _ H1 H2 H3)))).
Defined.

Example sent_text_is_input_core_witness :
  sendMessage demo_api (lit "m2") (ui (world_after demo_typing))
    = (ui (world_after demo_waiting),
       Some (chat_request demo_api (lit "a latte") (JV (JStr (lit "s-1"))))) /\
  exists pre m post,
    input (ui (world_after demo_typing)) = pre ++ m ++ post /\
    forallb is_whitespace pre = true /\ forallb is_whitespace post = true /\
    (exists c r, m = c :: r /\ is_whitespace c = false) /\
    (exists r c, m = r ++ [c] /\ is_whitespace c = false) /\
    body (chat_request demo_api (lit "a latte") (JV (JStr (lit "s-1"))))
      = Some (chat_body m (sessionId (ui (world_after demo_typing)))) /\
    messages (ui (world_after demo_waiting))
      = messages (ui (world_after demo_typing))
        ++ [mkMessage (lit "m2") user (JV (JStr m))] /\
    input (ui (world_after demo_waiting)) = [].
Proof.
  assert (H1 : sendMessage demo_api (lit "m2") (ui (world_after demo_typing))
               = (ui (world_after demo_waiting),
                  Some (chat_request demo_api (lit "a latte")
                          (JV (JStr (lit "s-1")))))) by reflexivity.
  exact (conj H1 (sent_text_is_input_core demo_api _ _ _ _ H1)).
Defined.


Example start_comes_first_witness :
  run demo_api demo_waiting unmounted
    = Some (world_after demo_waiting, requests_of demo_waiting) /\
  (requests_of demo_waiting = [] \/
   exists rest, requests_of demo_waiting = start_request demo_api :: rest).
Proof.
  refine (let H1 := eq_refl in
          conj H1 (proj1 (start_comes_first demo_api demo_waiting _ _ H1))).
Defined.

Example one_session_per_conversation_witness :
  mounted (world_after demo_typing) = true /\
  existsb restarts
    [Submit (lit "m2"); ChatSettled (Resolved demo_final_body) (lit "m3")]
    = false /\
  run demo_api
      [Submit (lit "m2"); ChatSettled (Resolved demo_final_body) (lit "m3")]
      (world_after demo_typing)
    = Some (world_after demo_done,
            [chat_request demo_api (lit "a latte") (JV (JStr (lit "s-1")))]) /\
  sessionId (ui (world_after demo_done))
    = sessionId (ui (world_after demo_typing)).
Proof.
  assert (H1 : mounted (world_after demo_typing) = true) by reflexivity.
  assert (H2 : existsb restarts
                 [Submit (lit "m2");
                  ChatSettled (Resolved demo_final_body) (lit "m3")] = false)
    by reflexivity.
  assert (H3 : run demo_api
                 [Submit (lit "m2");
                  ChatSettled (Resolved demo_final_body) (lit "m3")]
                 (world_after demo_typing)
               = Some (world_after demo_done,
                       [chat_request demo_api (lit "a latte")
                          (JV (JStr (lit "s-1")))])) by reflexivity.
  exact (conj H1 (conj H2 (conj H3 (proj1 (one_session_per_conversation demo_api _ _ _ _ H1 H2 H3))))).
Defined.

Example transcript_only_grows_witness :
  mounted (world_after demo_typing) = true /\
  existsb restarts
    [Submit (lit "m2"); ChatSettled (Resolved demo_final_body) (lit "m3")]
    = false /\
  run demo_api
      [Submit (lit "m2"); ChatSettled (Resolved demo_final_body) (lit "m3")]
      (world_after demo_typing)
    = Some (world_after demo_done,
            [chat_request demo_api (lit "a latte") (JV (JStr (lit "s-1")))]) /\
  exists added,
    messages (ui (world_after demo_done))
      = messages (ui (world_after demo_typing)) ++ added /\
    (length added <= 2)%nat.
Proof.
  assert (H1 : mounted (world_after demo_typing) = true) by reflexivity.
  assert (H2 : existsb restarts
                 [Submit (lit "m2");
                  ChatSettled (Resolved demo_final_body) (lit "m3")] = false)
    by reflexivity.
  assert (H3 : run demo_api
                 [Submit (lit "m2");
                  ChatSettled (Resolved demo_final_body) (lit "m3")]
                 (world_after demo_typing)
               = Some (world_after demo_done,
                       [chat_request demo_api (lit "a latte")
                          (JV (JStr (lit "s-1")))])) by reflexivity.
  exact (conj H1 (conj H2 (conj H3 (transcript_only_grows demo_api _ _ _ _ H1 H2 H3)))).
Defined.

Example missing_session_id_is_omitted_witness :
  run demo_api [Mount] unmounted
    = Some (world_after [Mount], requests_of [Mount]) /\
  assoc "session_id" [("detail"%string, JStr (lit "Internal Server Error"))]
    = None /\
  step demo_api (world_after [Mount])
       (StartSettled
          (Resolved (JObj [("detail"%string, JStr (lit "Internal Server Error"))]))
          (lit "m1"))
    = Some (world_after
              [Mount;
               StartSettled
                 (Resolved
                    (JObj [("detail"%string, JStr (lit "Internal Server Error"))]))
                 (lit "m1")], []) /\
  existsb restarts [Change (lit "hi"); Submit (lit "m2")] = false /\
  run demo_api [Change (lit "hi"); Submit (lit "m2")]
      (world_after
         [Mount;
          StartSettled
            (Resolved
               (JObj [("detail"%string, JStr (lit "Internal Server Error"))]))
            (lit "m1")])
    = Some (world_after
              [Mount;
               StartSettled
                 (Resolved
                    (JObj [("detail"%string, JStr (lit "Internal Server Error"))]))
                 (lit "m1");
               Change (lit "hi"); Submit (lit "m2")],
            [chat_request demo_api (lit "hi") JUndefined]) /\
  forall rq, In rq [chat_request demo_api (lit "hi") JUndefined] ->
    exists m, body rq = Some (JObj [("message"%string, JStr m)]).
Proof.
  assert (H1 : run demo_api [Mount] unmounted
               = Some (world_after [Mount], requests_of [Mount]))
    by reflexivity.
  assert (H2 : assoc "session_id"
                 [("detail"%string, JStr (lit "Internal Server Error"))] = None)
    by reflexivity.
  assert (H3 : step demo_api (world_after [Mount])
                 (StartSettled
                    (Resolved
                       (JObj [("detail"%string,
                               JStr (lit "Internal Server Error"))]))
                    (lit "m1"))
               = Some (world_after
                         [Mount;
                          StartSettled
                            (Resolved
                               (JObj [("detail"%string,
                                       JStr (lit "Internal Server Error"))]))
                            (lit "m1")], [])) by reflexivity.
  assert (H4 : existsb restarts [Change (lit "hi"); Submit (lit "m2")] = false)
    by reflexivity.
  assert (H5 : run demo_api [Change (lit "hi"); Submit (lit "m2")]
                 (world_after
                    [Mount;
                     StartSettled
                       (Resolved
                          (JObj [("detail"%string,
                                  JStr (lit "Internal Server Error"))]))
                       (lit "m1")])
               = Some (world_after
                         [Mount;
                          StartSettled
                            (Resolved
                               (JObj [("detail"%string,
                                       JStr (lit "Internal Server Error"))]))
                            (lit "m1");
                          Change (lit "hi"); Submit (lit "m2")],
                       [chat_request demo_api (lit "hi") JUndefined]))
    by reflexivity.
  exact (conj H1 (conj H2 (conj H3 (conj H4 (conj H5
           (proj2 (missing_session_id_is_omitted demo_api _ _ _ _ _ _ _ _ _
                     H1 H2 H3 H4 H5))))))).
Defined.

Example message_ids_unique_witness :
  run demo_api demo_done unmounted
    = Some (world_after demo_done, requests_of demo_done) /\
  NoDup (concat (event_ids <$> demo_done)) /\
  NoDup (id <$> messages (ui (world_after demo_done))).
Proof.
  assert (H1 : run demo_api demo_done unmounted
               = Some (world_after demo_done, requests_of demo_done))
    by reflexivity.
  assert (H2 : NoDup (concat (event_ids <$> demo_done)))
    by (apply (bool_decide_eq_true_1 (NoDup (concat (event_ids <$> demo_done))));
        vm_compute; reflexivity).
  exact (conj H1 (conj H2 (message_ids_unique demo_api demo_done _ _ H1 H2))).
Defined.

End WidgetMore.

(** ** The rewrite configuration *)

Module NextConfigFacts.
Import NextConfig.

(** X12.  Whatever the value of NEXT_PUBLIC_API_URL (unset, empty or a
    URL), the single rewrite rule of next.config.mjs sends /api/:path* to
    the same back-end base URL that the page uses for its requests. *)
Theorem rewrite_targets_api_url (e : env) :
  rewrites e
  = [{| source := "/api/:path*"; destination := API_URL e ++ "/:path*" |}].
Proof. destruct e as [[|a s]|]; reflexivity. Qed.

End NextConfigFacts.

(** ** The ordering back end *)

Module BackendFacts.
Import Backend.

Local Open Scope Z_scope.
Local Open Scope list_scope.

(** *** Prices *)

Lemma subtotal_of_app (ls : list OrderLine) (l : OrderLine) :
  subtotal_of (ls ++ [l]) = subtotal_of ls + linePrice l.
Proof.
  unfold subtotal_of. induction ls as [|x ls IH]; simpl; [lia|].
  rewrite IH. lia.
Qed.

Lemma deltas_of_list (it : MenuItem) (ms : list string) :
  (forall m, In m ms -> is_Some (modifiers it !! m)) ->
  exists deltas,
    Forall2 (fun m d => modifiers it !! m = Some d) ms deltas /\
    foldr (fun m acc => default 0 (modifiers it !! m) + acc) 0 ms
    = foldr Z.add 0 deltas.
Proof.
  induction ms as [|m ms IH]; intros Hall.
  - exists []. split; [constructor|reflexivity].
  - destruct IH as (deltas & HF & Hsum).
    { intros m' Hm'. apply Hall. right. exact Hm'. }
    destruct (Hall m (or_introl eq_refl)) as [d Hd].
    exists (d :: deltas). split; [constructor; assumption|].
    simpl. rewrite Hd, Hsum. reflexivity.
Qed.

Lemma modifier_total_deltas (it : MenuItem) (mods : gset string) :
  mods ⊆ dom (modifiers it) ->
  exists deltas,
    Forall2 (fun m d => modifiers it !! m = Some d) (elements mods) deltas /\
    modifier_total it mods = foldr Z.add 0 deltas.
Proof.
  intros Hsub. apply deltas_of_list.
  intros m Hm. apply elem_of_dom, Hsub, elem_of_elements, list_elem_of_In, Hm.
Qed.

(** *** Tools *)

Lemma parse_add_to_order (name : string) (qty : Z) (ms : list string) :
  0 < qty ->
  parse_call "add_to_order" (add_args name qty ms)
  = Some (add_to_order name qty (list_to_set ms)).
Proof.
  intros Hq. unfold parse_call, add_args. simpl.
  rewrite lookup_insert_eq.
  rewrite lookup_insert_ne, lookup_insert_eq by discriminate.
  rewrite !lookup_insert_ne, lookup_insert_eq by discriminate.
  rewrite !map_size_insert_None, map_size_empty.
  - simpl. apply Z.ltb_lt in Hq. rewrite Hq. reflexivity.
  - apply lookup_empty.
  - rewrite lookup_insert_ne by discriminate. apply lookup_empty.
  - rewrite !lookup_insert_ne by discriminate. apply lookup_empty.
Qed.

(** C1.  For an item of the catalog, a positive quantity and a set of
    modifiers that all exist on the item, [add_to_order] succeeds and a
    following [get_order] shows the ledger with the new line at its end,
    carrying the same item, quantity and modifiers and the line price
    (base price + sum of the modifier deltas) x quantity; the running
    subtotal grows by that price.  The request passes schema validation. *)
Theorem add_then_get_order (cfg : Config) (o : Order)
    (name : string) (it : MenuItem) (qty : Z) (mods : gset string) :
  menu cfg !! name = Some it ->
  0 < qty ->
  mods ⊆ dom (modifiers it) ->
  exists line o' deltas,
    parse_call "add_to_order" (add_args name qty (elements mods))
      = Some (add_to_order name qty mods) /\
    execute_tool cfg (add_to_order name qty mods) o = inr (LineAdded line, o') /\
    execute_tool cfg get_order o'
      = inr (OrderData (lines o ++ [line]) (subtotal_of (lines o) + linePrice line),
             o') /\
    item line = name /\ quantity line = qty /\ line_modifiers line = mods /\
    Forall2 (fun m d => modifiers it !! m = Some d) (elements mods) deltas /\
    linePrice line = (basePrice it + foldr Z.add 0 deltas) * qty.
Proof.
  intros Hit Hq Hsub.
  destruct (modifier_total_deltas it mods Hsub) as (deltas & HF & Hsum).
  eexists _, _, deltas.
  split; [rewrite (parse_add_to_order _ _ _ Hq), list_to_set_elements_L; reflexivity|].
  simpl. rewrite Hit.
  rewrite bool_decide_eq_true_2 by exact Hsub.
  split; [reflexivity|]. simpl. rewrite subtotal_of_app.
  split; [reflexivity|]. simpl.
  repeat split; try reflexivity; try assumption.
  unfold line_price. rewrite Hsum. reflexivity.
Qed.

(** C3.  [place_order] fails with OrderNotConfirmedError whenever the
    order's status is not confirmed, and on a confirmed order it sets the
    status to placed and raises the session's finished flag;
    [confirm_order] fails with EmptyOrderError on an order without lines,
    and on any other order it sets the status to confirmed. *)
Theorem place_and_confirm_guards (cfg : Config) (s : Session) :
  (status (order s) <> confirmed ->
   execute_tool cfg place_order (order s) = inl OrderNotConfirmedError /\
   invoke cfg place_order s = inl OrderNotConfirmedError) /\
  (status (order s) = confirmed ->
   exists d s',
     invoke cfg place_order s = inr (d, s') /\
     status (order s') = placed /\ lines (order s') = lines (order s) /\
     finished s' = true) /\
  (lines (order s) = [] ->
   execute_tool cfg confirm_order (order s) = inl EmptyOrderError /\
   invoke cfg confirm_order s = inl EmptyOrderError) /\
  (lines (order s) <> [] ->
   exists d s',
     invoke cfg confirm_order s = inr (d, s') /\
     status (order s') = confirmed /\ lines (order s') = lines (order s) /\
     finished s' = finished s).
Proof.
  unfold invoke. simpl. split; [|split; [|split]].
  - intros Hst. destruct (status (order s)); try (split; reflexivity). contradiction.
  - intros ->. eexists _, _. split; [reflexivity|]. simpl.
    rewrite orb_true_r. auto.
  - intros ->. split; reflexivity.
  - intros Hne. destruct (lines (order s)) as [|l ls] eqn:E; [contradiction|].
    eexists _, _. split; [reflexivity|]. simpl.
    rewrite orb_false_r. auto.
Qed.

(** *** The loop *)










(** *** The session store *)

(** C6.  A chat call whose session id is not in the store fails with
    SessionNotFoundError, which the HTTP shim answers outside the 2xx class
    with an error body; the store is left exactly as it was, so no session
    is created or changed. *)
Theorem chat_unknown_session cfg model (store : gmap string Session) sid message :
  store !! sid = None ->
  chat cfg model store sid message
    = (store, Failed SessionNotFoundError (apology cfg SessionNotFoundError)) /\
  http_chat cfg model store message sid
    = (store, HttpNon2xx (ErrorBody (apology cfg SessionNotFoundError))).
Proof.
  intros Hs. unfold http_chat, chat. rewrite Hs. split; reflexivity.
Qed.








(** *** Examples *)

Example add_then_get_order_witness :
  menu demo_cfg !! "latte" = Some demo_latte /\
  0 < 2 /\
  ({["large"]} : gset string) ⊆ dom (modifiers demo_latte) /\
  exists line o' deltas,
    parse_call "add_to_order"
               (add_args "latte" 2 (elements ({["large"]} : gset string)))
      = Some (add_to_order "latte" 2 {["large"]}) /\
    execute_tool demo_cfg (add_to_order "latte" 2 {["large"]}) empty_order
      = inr (LineAdded line, o') /\
    execute_tool demo_cfg get_order o'
      = inr (OrderData (lines empty_order ++ [line])
                       (subtotal_of (lines empty_order) + linePrice line), o') /\
    item line = "latte"%string /\ quantity line = 2 /\
    line_modifiers line = {["large"]} /\
    Forall2 (fun m d => modifiers demo_latte !! m = Some d)
            (elements ({["large"]} : gset string)) deltas /\
    linePrice line = (basePrice demo_latte + foldr Z.add 0 deltas) * 2.
Proof.
  assert (H1 : menu demo_cfg !! "latte" = Some demo_latte)
    by (vm_compute; reflexivity).
  assert (H2 : 0 < 2) by lia.
  assert (H3 : ({["large"]} : gset string) ⊆ dom (modifiers demo_latte))
    by (apply (bool_decide_eq_true_1
                 (({["large"]} : gset string) ⊆ dom (modifiers demo_latte)));
        vm_compute; reflexivity).
  exact (conj H1 (conj H2 (conj H3
           (add_then_get_order demo_cfg empty_order "latte" demo_latte 2
              {["large"]} H1 H2 H3)))).
Defined.

(** Two large lattes cost (450 + 50) x 2. *)
Example two_large_lattes :
  exists line o',
    execute_tool demo_cfg (add_to_order "latte" 2 {["large"]}) empty_order
      = inr (LineAdded line, o') /\
    linePrice line = 1000.
Proof. eexists _, _. split; [reflexivity|vm_compute; reflexivity]. Qed.

Example place_and_confirm_guards_witness :
  status (order (session_of store_confirmed)) = confirmed /\
  exists d s',
    invoke demo_cfg place_order (session_of store_confirmed) = inr (d, s') /\
    status (order s') = placed /\
    lines (order s') = lines (order (session_of store_confirmed)) /\
    finished s' = true.
Proof.
  assert (H1 : status (order (session_of store_confirmed)) = confirmed)
    by (vm_compute; reflexivity).
  exact (conj H1
           (proj1 (proj2 (place_and_confirm_guards demo_cfg
                            (session_of store_confirmed))) H1)).
Defined.




(** A turn that runs into the bound: three tool calls succeed, the turn
    fails with ToolLoopExceededError and the fallback apology. *)
Example exhausted_turn :
  turn_exhausted.1.2
    = Failed ToolLoopExceededError (apology demo_cfg ToolLoopExceededError) /\
  length turn_exhausted.2 = 3%nat.
Proof. split; vm_compute; reflexivity. Qed.


(** In the turn of the witness the lattes are in the ledger when the
    unknown item is asked for, and the failed request leaves them there. *)
Example failed_after_success :
  length (lines (order before_unicorn)) = 1%nat /\
  length (lines (order turn_half_confused.1.1)) = 1%nat /\
  order turn_half_confused.1.1 = order before_unicorn /\
  finished turn_half_confused.1.1 = false.
Proof. split; [|split; [|split]]; vm_compute; reflexivity. Qed.

(** The scenario of the unknown item: the reply is the apology, the ledger
    is still empty and the session is not finished. *)
Example unknown_item_scenario :
  (chat demo_cfg confused store_started sid0 "a unicorn frappe").2
    = Replied (apology demo_cfg UnknownItemError) false /\
  lines (order turn_confused.1.1) = [] /\
  finished turn_confused.1.1 = false.
Proof. split; [|split]; vm_compute; reflexivity. Qed.

Example chat_unknown_session_witness :
  store_started !! "unknown-session-id" = None /\
  chat demo_cfg confused store_started "unknown-session-id" "hi"
    = (store_started,
       Failed SessionNotFoundError (apology demo_cfg SessionNotFoundError)) /\
  http_chat demo_cfg confused store_started "hi" "unknown-session-id"
    = (store_started,
       HttpNon2xx (ErrorBody (apology demo_cfg SessionNotFoundError))).
Proof.
  assert (H1 : store_started !! "unknown-session-id" = None)
    by (vm_compute; reflexivity).
  exact (conj H1
           (chat_unknown_session demo_cfg confused store_started
              "unknown-session-id" "hi" H1)).
Defined.

(** The session that placed its order and was asked to confirm it once more
    in the same turn: the request is refused, the order stays placed. *)
Example reconfirmed_session :
  store_reconfirmed !! sid0 = Some (session_of store_reconfirmed) /\
  finished (session_of store_reconfirmed) = true /\
  status (order (session_of store_reconfirmed)) = placed /\
  (chat demo_cfg reconfirming store_confirmed sid0 "place it").2
    = Replied (apology demo_cfg OrderAlreadyFinishedError) true.
Proof. split; [|split; [|split]]; vm_compute; reflexivity. Qed.


End BackendFacts.
